(** * Workspace storage subsystem: quota ledger, storage service, drivers
      and the cleanup job

    A shallow embedding of
    - [app/modules/storage/models.py]   (StorageFile, StorageQuota),
    - [app/modules/storage/drivers/*]   (the driver contract, delete_file),
    - [app/modules/storage/service.py]  (StorageService),
    - [app/modules/storage/cleanup.py]  (StorageCleanupService, run_cleanup_job),
    with what they use of [app/core/models.py] and [app/core/database.py],
    followed by the properties established about them.

    Conventions.  Python [int] is [Z]; an [Optional[int]] column is
    [option Z]; a [datetime] is a number of seconds ([Z]); a UUID is a [Z];
    tables with a primary key are finite maps from the key to the row. *)

From Stdlib Require Import ZArith Lia.
From stdpp Require Import base option list gmap strings pretty.

Local Open Scope Z_scope.

(** ** Time *)

Definition datetime := Z.

(** [timedelta(hours=h)] and [timedelta(days=d)], in seconds. *)
Definition hours (h : Z) : Z := h * 3600.
Definition days (d : Z) : Z := d * 86400.

(** [str(n)] for a Python integer. *)
Definition str_int (n : Z) : string := pretty n.

(** [str.lower()], on ASCII letters. *)
Definition lower_ascii (c : Ascii.ascii) : Ascii.ascii :=
  let n := Ascii.nat_of_ascii c in
  if ((65 <=? n) && (n <=? 90))%nat then Ascii.ascii_of_nat (n + 32) else c.

Fixpoint lower (s : string) : string :=
  match s with
  | EmptyString => EmptyString
  | String c s' => String (lower_ascii c) (lower s')
  end.

(** Truthiness of an [Optional[int]]: [None] and [0] are both falsy. *)
Definition truthy (o : option Z) : bool :=
  match o with
  | None => false
  | Some n => negb (n =? 0)
  end.

(** ** models.py *)

Module Models.

Inductive FileStatus := UPLOADING | ACTIVE | DELETED | ARCHIVED.

#[export] Instance FileStatus_eq_dec : EqDecision FileStatus.
Proof. solve_decision. Defined.

Inductive StorageProvider := MINIO | S3 | LOCAL.

Record StorageFile := mkStorageFile {
  file_key : string;
  original_filename : string;
  content_type : string;
  file_size : Z;
  status : FileStatus;
  storage_provider : StorageProvider;
  workspace_id : Z;
  uploaded_by : Z;
  folder_path : option string;
  is_public : bool;
  expires_at : option datetime;
  deleted_at : option datetime;
  created_at : datetime;
  updated_at : datetime
}.

(** [StorageFile.is_deleted] *)
Definition is_deleted (f : StorageFile) : bool :=
  bool_decide (deleted_at f ≠ None) || bool_decide (status f = DELETED).

(** [StorageFile.is_expired], with the clock reading passed in. *)
Definition is_expired (now : datetime) (f : StorageFile) : bool :=
  match expires_at f with
  | None => false
  | Some e => now >? e
  end.

(** [StorageFile.soft_delete]: two attribute assignments, nothing else. *)
Definition soft_delete (now : datetime) (f : StorageFile) : StorageFile :=
  {| file_key := file_key f;
     original_filename := original_filename f;
     content_type := content_type f;
     file_size := file_size f;
     status := DELETED;
     storage_provider := storage_provider f;
     workspace_id := workspace_id f;
     uploaded_by := uploaded_by f;
     folder_path := folder_path f;
     is_public := is_public f;
     expires_at := expires_at f;
     deleted_at := Some now;
     created_at := created_at f;
     updated_at := updated_at f |}.

(** core/models.py, [TimestampMixin]: [updated_at] has
    [onupdate=func.now()], so the UPDATE that writes a changed record back
    sets it to the clock reading of the write. *)
Definition on_update (now : datetime) (f : StorageFile) : StorageFile :=
  {| file_key := file_key f;
     original_filename := original_filename f;
     content_type := content_type f;
     file_size := file_size f;
     status := status f;
     storage_provider := storage_provider f;
     workspace_id := workspace_id f;
     uploaded_by := uploaded_by f;
     folder_path := folder_path f;
     is_public := is_public f;
     expires_at := expires_at f;
     deleted_at := deleted_at f;
     created_at := created_at f;
     updated_at := now |}.

(** Two records that agree on every column except [deleted_at],
    [status] and [updated_at]. *)
Definition same_but_deletion_and_updated_at (f f' : StorageFile) : Prop :=
  file_key f' = file_key f ∧
  original_filename f' = original_filename f ∧
  content_type f' = content_type f ∧
  file_size f' = file_size f ∧
  storage_provider f' = storage_provider f ∧
  workspace_id f' = workspace_id f ∧
  uploaded_by f' = uploaded_by f ∧
  folder_path f' = folder_path f ∧
  is_public f' = is_public f ∧
  expires_at f' = expires_at f ∧
  created_at f' = created_at f.

(** Two records that agree on every column except [deleted_at] and
    [status]. *)
Definition same_but_deletion (f f' : StorageFile) : Prop :=
  file_key f' = file_key f ∧
  original_filename f' = original_filename f ∧
  content_type f' = content_type f ∧
  file_size f' = file_size f ∧
  storage_provider f' = storage_provider f ∧
  workspace_id f' = workspace_id f ∧
  uploaded_by f' = uploaded_by f ∧
  folder_path f' = folder_path f ∧
  is_public f' = is_public f ∧
  expires_at f' = expires_at f ∧
  created_at f' = created_at f ∧
  updated_at f' = updated_at f.

Record StorageQuota := mkStorageQuota {
  max_storage_bytes : option Z;
  max_files : option Z;
  max_file_size_bytes : option Z;
  used_storage_bytes : Z;
  used_files : Z;
  enforce_quota : bool
}.

(** [StorageQuota.can_upload_file]: the pair [(can_upload, reason)]. *)
Definition can_upload_file (q : StorageQuota) (size : Z) : bool * string :=
  if negb (enforce_quota q) then (true, "Quota enforcement disabled")
  else if truthy (max_file_size_bytes q)
          && (size >? default 0 (max_file_size_bytes q)) then
    (false, "File size exceeds limit of "
              +:+ str_int (default 0 (max_file_size_bytes q)) +:+ " bytes")
  else if truthy (max_storage_bytes q)
          && (used_storage_bytes q + size >? default 0 (max_storage_bytes q)) then
    (false, "Storage quota exceeded. Available: "
              +:+ str_int (default 0 (max_storage_bytes q) - used_storage_bytes q)
              +:+ " bytes")
  else if truthy (max_files q)
          && (used_files q >=? default 0 (max_files q)) then
    (false, "File count limit of " +:+ str_int (default 0 (max_files q))
              +:+ " reached")
  else (true, "Upload allowed").

(** The two counter updates of the service, [quota.used_storage_bytes += d]
    together with [quota.used_files += n]. *)
Definition add_usage (d n : Z) (q : StorageQuota) : StorageQuota :=
  {| max_storage_bytes := max_storage_bytes q;
     max_files := max_files q;
     max_file_size_bytes := max_file_size_bytes q;
     used_storage_bytes := used_storage_bytes q + d;
     used_files := used_files q + n;
     enforce_quota := enforce_quota q |}.

Record StorageAccessLog := mkStorageAccessLog {
  log_file_id : Z;
  log_user_id : Z;
  log_action : string
}.

End Models.
Import Models.

(** ** The admission rule in the words of the specification

    [first_failing] searches the three limits in the stated order;
    [unlimited] says which stored limits count as "no limit".  The
    specification's reading is [null_only]: only a null limit is unlimited. *)

Inductive Limit := FileSizeLimit | StorageLimit | FileCountLimit.

Definition limit_value (q : StorageQuota) (l : Limit) : option Z :=
  match l with
  | FileSizeLimit => max_file_size_bytes q
  | StorageLimit => max_storage_bytes q
  | FileCountLimit => max_files q
  end.

Definition limit_fails (unlimited : option Z → bool)
    (q : StorageQuota) (size : Z) (l : Limit) : bool :=
  negb (unlimited (limit_value q l)) &&
  match l with
  | FileSizeLimit => size >? default 0 (max_file_size_bytes q)
  | StorageLimit => used_storage_bytes q + size >? default 0 (max_storage_bytes q)
  | FileCountLimit => used_files q >=? default 0 (max_files q)
  end.

Definition first_failing (unlimited : option Z → bool)
    (q : StorageQuota) (size : Z) : option Limit :=
  List.find (limit_fails unlimited q size)
            [FileSizeLimit; StorageLimit; FileCountLimit].

Definition reason_text (q : StorageQuota) (l : Limit) : string :=
  match l with
  | FileSizeLimit =>
      "File size exceeds limit of "
        +:+ str_int (default 0 (max_file_size_bytes q)) +:+ " bytes"
  | StorageLimit =>
      "Storage quota exceeded. Available: "
        +:+ str_int (default 0 (max_storage_bytes q) - used_storage_bytes q)
        +:+ " bytes"
  | FileCountLimit =>
      "File count limit of " +:+ str_int (default 0 (max_files q)) +:+ " reached"
  end.

Definition canUpload_spec (unlimited : option Z → bool)
    (q : StorageQuota) (size : Z) : bool * string :=
  if enforce_quota q then
    match first_failing unlimited q size with
    | Some l => (false, reason_text q l)
    | None => (true, "Upload allowed")
    end
  else (true, "Quota enforcement disabled").

Definition null_only (o : option Z) : bool := bool_decide (o = None).
Definition null_or_zero (o : option Z) : bool := negb (truthy o).

(** ** Exceptions

    [HTTPException] is what the service raises itself; [S3Error] stands for
    the SDK error the drivers catch ([minio.error.S3Error],
    [botocore.exceptions.ClientError]); [OtherError] is any other exception
    coming out of an SDK call or a driver.  [TypeError] and
    [AttributeError] are Python's own, raised by a call or an attribute
    read the interpreter refuses; [PendingRollbackError] is SQLAlchemy's,
    raised by a read through a session whose last commit failed. *)

Inductive exn :=
| HTTPException (status_code : Z) (detail : string)
| S3Error (code : string)
| OtherError (msg : string)
| TypeError (msg : string)
| AttributeError (msg : string)
| PendingRollbackError.

Definition HTTP_404_NOT_FOUND : Z := 404.
Definition HTTP_410_GONE : Z := 410.
Definition HTTP_413_REQUEST_ENTITY_TOO_LARGE : Z := 413.

(** The error taxonomy of the specification, and where the exceptions of
    the code fall in it: an [HTTPException] by its status (404 is "not
    found", 413 is the quota rejection of [upload_file]), the SDK error as
    the backend's failure.  No exception of the code falls in
    [ValidationError] or [CrossWorkspaceAccessError]. *)
Inductive ErrorKind :=
| NotFound | BackendUnavailable | QuotaExceeded | ValidationError
| CrossWorkspaceAccessError.

Definition error_kind (e : exn) : option ErrorKind :=
  match e with
  | HTTPException c _ =>
      if c =? HTTP_404_NOT_FOUND then Some NotFound
      else if c =? HTTP_413_REQUEST_ENTITY_TOO_LARGE then Some QuotaExceeded
      else None
  | S3Error _ => Some BackendUnavailable
  | _ => None
  end.

(** ** drivers/ *)

Module Drivers.

(** *** The object store behind the SDK clients

    Buckets of objects, as the S3 protocol has them.  [remove_object]
    follows the protocol's DELETE: on a bucket that exists it succeeds
    whether or not the key is present; it answers with an S3 error when
    the bucket does not exist; an unreachable endpoint makes the client
    raise a transport error, which is not an S3 error. *)

Record StoredObject := mkStoredObject {
  obj_content : list Byte.byte;
  obj_content_type : string
}.

Record Backend := mkBackend {
  reachable : bool;
  buckets : gmap string (gmap string StoredObject)
}.

Definition remove_object (bucket key : string) (b : Backend) : exn + Backend :=
  if negb (reachable b) then inl (OtherError "connection error")
  else match buckets b !! bucket with
       | None => inl (S3Error "NoSuchBucket")
       | Some objs =>
           inr (mkBackend (reachable b) (<[bucket := delete key objs]> (buckets b)))
       end.

(** Whether [key] names an object of the driver's bucket. *)
Definition has_object (bucket key : string) (b : Backend) : bool :=
  match buckets b !! bucket with
  | Some objs => bool_decide (is_Some (objs !! key))
  | None => false
  end.

(** *** [MinIOStorageDriver.delete_file] and [S3StorageDriver.delete_file]

    The two bodies are the same up to the call inside [try]: make the
    call, return [True]; on the S3 error, log and return [False].  Any
    other exception is not caught.  [client_remove] is that call. *)
Section delete_file.
Context {B : Type}.
Variable client_remove : string → string → B → exn + B.

Definition delete_file (bucket_name file_key : string) (b : B)
  : (exn + bool) * B :=
  match client_remove bucket_name file_key b with
  | inr b' => (inr true, b')
  | inl (S3Error _) => (inr false, b)
  | inl e => (inl e, b)
  end.
End delete_file.

(** The MinIO driver keeps one bucket per workspace; the S3 driver is
    given its bucket name. *)
Definition minio_bucket_name (workspace : string) : string :=
  "workspace-" +:+ workspace.

(** minio_driver.py:188-190 hands the client call to the executor with
    positional arguments:
    [run_in_executor(None, self.client.remove_object, self.bucket_name, file_key)]. *)
Definition MinIO_delete_file (workspace : string) :=
  delete_file remove_object (minio_bucket_name workspace).

(** s3_driver.py:192-197 hands it over with keywords:
    [run_in_executor(None, self.s3_client.delete_object, Bucket=..., Key=...)].
    The event loop's [run_in_executor(executor, func, *args)] accepts no
    keyword argument, so the call raises [TypeError] before the client is
    reached, whatever the bucket, the key and the store. *)
Definition run_in_executor_keywords {B : Type} (bucket key : string) (b : B)
  : exn + B :=
  inl (TypeError
         "BaseEventLoop.run_in_executor() got an unexpected keyword argument 'Bucket'").

Definition S3_delete_file (bucket_name : string) :=
  delete_file (B:=Backend) run_in_executor_keywords bucket_name.

(** *** base.py: the operations of [BaseStorageDriver] the service calls

    [D] is the driver together with the store behind it.  Every operation
    may raise; the clock reading is passed where the driver reads it. *)

Record UploadResult := mkUploadResult {
  ur_file_key : string;
  ur_filename : string;
  ur_content_type : string;
  ur_size : Z
}.

Record FileMetadata := mkFileMetadata {
  fm_file_key : string;
  fm_content_type : string;
  fm_size : Z
}.

Record SignedUrlResult := mkSignedUrlResult {
  su_url : string;
  su_expires_at : datetime;
  su_operation : string
}.

Class BaseStorageDriver (D : Type) := {
  upload_file : list Byte.byte → string → string → D → (exn + UploadResult) * D;
  download_file : string → D → (exn + (list Byte.byte * FileMetadata)) * D;
  driver_delete_file : string → D → (exn + bool) * D;
  generate_signed_url :
    datetime → string → Z → string → D → (exn + SignedUrlResult) * D;
  is_minio : D → bool
}.

(** *** A driver for the sample states

    It keeps the objects in a map and returns the result types of
    schemas.py, as base.py prescribes.  It is not a class of the
    repository: the drivers of the repository need a server, and the
    [MockStorageDriver] of tests/test_storage.py returns dictionaries,
    which the service cannot read. *)

Record MemoryDriver := mkMemoryDriver {
  memory_workspace_id : string;
  files : gmap string StoredObject
}.

Definition memory_prefix (d : MemoryDriver) : string :=
  "workspace-" +:+ memory_workspace_id d +:+ "/".

#[export] Instance memory_driver : BaseStorageDriver MemoryDriver := {
  upload_file data filename ctype d :=
    let file_key := memory_prefix d +:+ filename in
    (inr (mkUploadResult file_key filename ctype (Z.of_nat (length data))),
     mkMemoryDriver (memory_workspace_id d)
            (<[file_key := mkStoredObject data ctype]> (files d)));
  download_file file_key d :=
    match files d !! file_key with
    | Some o =>
        (inr (obj_content o,
              mkFileMetadata file_key (obj_content_type o)
                             (Z.of_nat (length (obj_content o)))), d)
    | None => (inl (OtherError ("File " +:+ file_key +:+ " not found")), d)
    end;
  driver_delete_file file_key d :=
    match files d !! file_key with
    | Some _ =>
        (inr true,
         mkMemoryDriver (memory_workspace_id d) (delete file_key (files d)))
    | None => (inr false, d)
    end;
  generate_signed_url now file_key expiration operation d :=
    (inr (mkSignedUrlResult ("https://example.com/signed-url/" +:+ file_key)
                            (now + expiration) operation), d);
  is_minio _ := false
}.

End Drivers.

(** ** service.py *)

Module StorageService.

Import Drivers.

(** The driver operations the service has invoked, in order. *)
Inductive DriverCall :=
| CallUpload (filename : string)
| CallDownload (file_key : string)
| CallDelete (file_key : string)
| CallSignedUrl (file_key operation : string).

Record FileResponse := mkFileResponse {
  fr_id : Z;
  fr_file_key : string;
  fr_filename : string;
  fr_content_type : string;
  fr_size : Z;
  fr_workspace_id : Z;
  fr_uploaded_by : Z;
  fr_created_at : datetime;
  fr_updated_at : datetime
}.

Section service.
Context {D : Type} `{!BaseStorageDriver D}.

(** What a [StorageService] acts on: the three tables behind its
    session, the driver with its store, and whether the access-log
    table refuses every insert.  The tables are as committed; the
    database is the PostgreSQL the models are written for, which
    enforces the foreign key of [StorageAccessLog.file_id]. *)
Record World := mkWorld {
  storage_files : gmap Z StorageFile;
  storage_quotas : gmap Z StorageQuota;
  storage_access_logs : list StorageAccessLog;
  log_write_fails : bool;
  driver : D;
  driver_calls : list DriverCall
}.

Definition set_files (t : gmap Z StorageFile) (w : World) : World :=
  mkWorld t (storage_quotas w) (storage_access_logs w) (log_write_fails w)
          (driver w) (driver_calls w).
Definition set_quotas (t : gmap Z StorageQuota) (w : World) : World :=
  mkWorld (storage_files w) t (storage_access_logs w) (log_write_fails w)
          (driver w) (driver_calls w).
Definition set_logs (t : list StorageAccessLog) (w : World) : World :=
  mkWorld (storage_files w) (storage_quotas w) t (log_write_fails w)
          (driver w) (driver_calls w).
Definition set_log_write_fails (b : bool) (w : World) : World :=
  mkWorld (storage_files w) (storage_quotas w) (storage_access_logs w) b
          (driver w) (driver_calls w).
(** A driver call: the new driver state, and the call recorded. *)
Definition called (c : DriverCall) (d : D) (w : World) : World :=
  mkWorld (storage_files w) (storage_quotas w) (storage_access_logs w)
          (log_write_fails w) d (driver_calls w ++ [c]).

(** A computation of the service: it ends with an exception or a value,
    and in both cases with the world as it has left it. *)
Definition M (A : Type) : Type := World → (exn + A) * World.

Definition ret {A} (a : A) : M A := λ w, (inr a, w).
Definition raise {A} (e : exn) : M A := λ w, (inl e, w).
Definition bind {A B} (m : M A) (k : A → M B) : M B :=
  λ w, match m w with
       | (inr a, w') => k a w'
       | (inl e, w') => (inl e, w')
       end.

Notation "x <- m ;; k" := (bind m (λ x, k))
  (at level 100, m at next level, right associativity).
Notation "m ;;; k" := (bind m (λ _, k))
  (at level 100, right associativity).

(** The workspace the service was constructed for. *)
Variable self_workspace_id : Z.

Definition default_quota : StorageQuota :=
  {| max_storage_bytes := Some (1024 * 1024 * 1024);
     max_files := Some 1000;
     max_file_size_bytes := Some (100 * 1024 * 1024);
     used_storage_bytes := 0;
     used_files := 0;
     enforce_quota := true |}.

Definition get_or_create_quota : M StorageQuota := λ w,
  match storage_quotas w !! self_workspace_id with
  | Some quota => (inr quota, w)
  | None =>
      (inr default_quota,
       set_quotas (<[self_workspace_id := default_quota]> (storage_quotas w)) w)
  end.

Definition _get_file_or_404 (file_id : Z) : M StorageFile := λ w,
  match storage_files w !! file_id with
  | Some f =>
      if bool_decide (workspace_id f = self_workspace_id) then (inr f, w)
      else (inl (HTTPException HTTP_404_NOT_FOUND "File not found"), w)
  | None => (inl (HTTPException HTTP_404_NOT_FOUND "File not found"), w)
  end.

(** models.py:269-273: [file_id] references [storage_files.id].  The
    insert of a log row is refused when the table refuses every insert or
    when no file row has that id. *)
Definition log_insert_refused (file_id : Z) (w : World) : bool :=
  log_write_fails w || negb (bool_decide (is_Some (storage_files w !! file_id))).

(** [_log_access]: the insert and its commit are inside [try]; whatever
    they raise is logged and dropped, and [None] is returned.  A commit
    that fails rolls the session back, which expires the records the
    session holds.  The value returned here is that state of [self.db]:
    [true] when the session has been rolled back. *)
Definition _log_access (file_id user_id : Z) (action : string) : M bool := λ w,
  if log_insert_refused file_id w then (inr true, w)
  else (inr false, set_logs (storage_access_logs w
                               ++ [mkStorageAccessLog file_id user_id action]) w).

(** A read of a column of [storage_file] after [_log_access], as in
    [logger.info(..., filename=storage_file.original_filename, ...)].
    On a session that has been rolled back the read of a record the
    session holds raises; a record the session has deleted is detached
    from it and keeps its columns. *)
Definition read_columns (rolled_back in_session : bool) : M unit :=
  if rolled_back && in_session then raise PendingRollbackError else ret ().

(** One call of a driver operation [op], recorded as [c]. *)
Definition call_driver {A} (c : DriverCall) (op : D → (exn + A) * D) : M A := λ w,
  let '(r, d) := op (driver w) in (r, called c d w).

Definition update_quota (f : StorageQuota → StorageQuota) (quota : StorageQuota)
  : M unit := λ w,
  (inr (), set_quotas (<[self_workspace_id := f quota]> (storage_quotas w)) w).

(** [self.db.add(storage_file)], as committed. *)
Definition db_add (id : Z) (f : StorageFile) : M unit := λ w,
  (inr (), set_files (<[id := f]> (storage_files w)) w).

(** The write-back of a changed record at commit: an UPDATE, which
    also sets [updated_at]. *)
Definition db_update (now : datetime) (id : Z) (f : StorageFile) : M unit := λ w,
  (inr (), set_files (<[id := on_update now f]> (storage_files w)) w).

(** [self.db.delete(storage_file)], as committed: the log rows of the
    file go with it ([ondelete="CASCADE"], models.py:270). *)
Definition db_delete (id : Z) : M unit := λ w,
  (inr (),
   set_logs (filter (λ l, log_file_id l ≠ id) (storage_access_logs w))
     (set_files (delete id (storage_files w)) w)).

(** [MINIO if isinstance(driver, MinIOStorageDriver) else S3] *)
Definition provider_of_driver : M StorageProvider := λ w,
  (inr (if is_minio (driver w) then MINIO else S3), w).

Definition upload_file (new_id : Z) (now : datetime)
    (file_data : list Byte.byte) (filename content_type : string)
    (user_id : Z) (folder : option string) (public : bool)
    (expires : option datetime) : M FileResponse :=
  let file_size := Z.of_nat (length file_data) in
  quota <- get_or_create_quota ;;
  let '(can_upload, reason) := can_upload_file quota file_size in
  if negb can_upload then
    raise (HTTPException HTTP_413_REQUEST_ENTITY_TOO_LARGE reason)
  else
    upload_result <- call_driver (CallUpload filename)
                      (Drivers.upload_file file_data filename content_type) ;;
    provider <- provider_of_driver ;;
    let storage_file :=
      {| file_key := ur_file_key upload_result;
         original_filename := filename;
         content_type := content_type;
         file_size := file_size;
         status := ACTIVE;
         storage_provider := provider;
         workspace_id := self_workspace_id;
         uploaded_by := user_id;
         folder_path := folder;
         is_public := public;
         expires_at := expires;
         deleted_at := None;
         created_at := now;
         updated_at := now |} in
    db_add new_id storage_file ;;;
    update_quota (add_usage file_size 1) quota ;;;
    rolled_back <- _log_access new_id user_id "upload" ;;
    (* service.py:191-211: [logger.info(..., file_id=storage_file.id, ...)]
       and the [FileResponse] built from the columns of [storage_file] *)
    read_columns rolled_back true ;;;
    ret (mkFileResponse new_id (file_key storage_file) filename content_type
           file_size self_workspace_id user_id now now).

Definition download_file (now : datetime) (file_id user_id : Z)
  : M (list Byte.byte * FileMetadata) :=
  storage_file <- _get_file_or_404 file_id ;;
  if is_deleted storage_file then
    raise (HTTPException HTTP_404_NOT_FOUND "File not found or has been deleted")
  else if is_expired now storage_file then
    raise (HTTPException HTTP_410_GONE "File has expired")
  else
    r <- call_driver (CallDownload (file_key storage_file))
          (Drivers.download_file (file_key storage_file)) ;;
    rolled_back <- _log_access file_id user_id "download" ;;
    (* service.py:247-252: [filename=storage_file.original_filename] *)
    read_columns rolled_back true ;;;
    ret r.

Definition delete_file (now : datetime) (file_id user_id : Z)
    (hard_delete : bool) : M bool :=
  storage_file <- _get_file_or_404 file_id ;;
  (if hard_delete then
     call_driver (CallDelete (file_key storage_file))
       (Drivers.driver_delete_file (file_key storage_file)) ;;;
     quota <- get_or_create_quota ;;
     update_quota (add_usage (- file_size storage_file) (-1)) quota ;;;
     db_delete file_id
   else
     db_update now file_id (soft_delete now storage_file)) ;;;
  rolled_back <- _log_access file_id user_id "delete" ;;
  (* service.py:291-297: [filename=storage_file.original_filename]; after
     a hard delete the session no longer holds [storage_file] *)
  read_columns rolled_back (negb hard_delete) ;;;
  ret true.

Definition generate_signed_url (now : datetime) (file_id user_id : Z)
    (expiration : Z) (operation : string) : M SignedUrlResult :=
  storage_file <- _get_file_or_404 file_id ;;
  if is_deleted storage_file then
    raise (HTTPException HTTP_404_NOT_FOUND "File not found or has been deleted")
  else
    signed_url <- call_driver (CallSignedUrl (file_key storage_file) operation)
                   (Drivers.generate_signed_url now (file_key storage_file)
                      expiration operation) ;;
    _log_access file_id user_id ("signed_url_" +:+ lower operation) ;;;
    (* service.py:411-421 reads [signed_url] and the arguments only *)
    ret signed_url.

(** The exception of [_get_file_or_404]. *)
Definition not_found : exn :=
  HTTPException HTTP_404_NOT_FOUND "File not found".

End service.

Arguments World D : clear implicits.

End StorageService.

(** ** cleanup.py *)

Module Cleanup.

(** A regular file under the storage directory: what [stat] reports, and
    whether [unlink] succeeds on it (it raises [OSError] otherwise, as for
    a file the process may not remove). *)
Record DiskFile := mkDiskFile {
  st_size : Z;
  st_mtime : datetime;
  removable : bool
}.

(** What the cleanup service acts on: the tables behind its session,
    the files under [storage_path] ([settings.UPLOAD_DIR], a directory of
    the machine the job runs on), keyed by their path relative to it, and
    whether that directory exists. *)
Record Store := mkStore {
  storage_files : gmap Z StorageFile;
  storage_quotas : gmap Z StorageQuota;
  disk : gmap string DiskFile;
  storage_path_exists : bool
}.

Definition set_files (t : gmap Z StorageFile) (s : Store) : Store :=
  mkStore t (storage_quotas s) (disk s) (storage_path_exists s).
Definition set_disk (d : gmap string DiskFile) (s : Store) : Store :=
  mkStore (storage_files s) (storage_quotas s) d (storage_path_exists s).

(** [StorageFile.file_path], the class attribute that [select] is given,
    and [db_file.file_path], the attribute of a record.  [StorageFile]
    (models.py:31-157, with the columns of [BaseModel]) declares
    [file_key] and no [file_path]: both reads raise [AttributeError].
    Were the attribute there, the first would be a column and the second
    a string. *)
Definition no_class_attribute : exn :=
  AttributeError "type object 'StorageFile' has no attribute 'file_path'".
Definition no_instance_attribute : exn :=
  AttributeError "'StorageFile' object has no attribute 'file_path'".

Definition StorageFile_file_path : exn + (StorageFile → string) :=
  inl no_class_attribute.

Definition file_path (r : StorageFile) : exn + string :=
  inl no_instance_attribute.

(** [str(e)], for the exceptions whose text the embedding carries. *)
Definition str_exn (e : exn) : string :=
  match e with
  | HTTPException _ detail => detail
  | S3Error code => code
  | OtherError msg | TypeError msg | AttributeError msg => msg
  | PendingRollbackError => "PendingRollbackError"
  end.

(** A statistics dictionary.  Each mode fills the keys it has; a key a
    mode's dictionary does not have stays [0] here. *)
Record Stats := mkStats {
  files_found : Z;
  files_deleted : Z;
  files_failed : Z;
  records_found : Z;
  records_deleted : Z;
  records_failed : Z;
  bytes_freed : Z;
  errors : list string
}.

Definition empty_stats : Stats := mkStats 0 0 0 0 0 0 0 [].

Definition file_deleted (size : Z) (st : Stats) : Stats :=
  mkStats (files_found st) (files_deleted st + 1) (files_failed st)
          (records_found st) (records_deleted st) (records_failed st)
          (bytes_freed st + size) (errors st).
Definition would_free (size : Z) (st : Stats) : Stats :=
  mkStats (files_found st) (files_deleted st) (files_failed st)
          (records_found st) (records_deleted st) (records_failed st)
          (bytes_freed st + size) (errors st).
Definition file_failed (msg : string) (st : Stats) : Stats :=
  mkStats (files_found st) (files_deleted st) (files_failed st + 1)
          (records_found st) (records_deleted st) (records_failed st)
          (bytes_freed st) (errors st ++ [msg]).
Definition record_deleted (st : Stats) : Stats :=
  mkStats (files_found st) (files_deleted st) (files_failed st)
          (records_found st) (records_deleted st + 1) (records_failed st)
          (bytes_freed st) (errors st).
Definition record_failed (msg : string) (st : Stats) : Stats :=
  mkStats (files_found st) (files_deleted st) (files_failed st)
          (records_found st) (records_deleted st) (records_failed st + 1)
          (bytes_freed st) (errors st ++ [msg]).
Definition reset_files_deleted (st : Stats) : Stats :=
  mkStats (files_found st) 0 (files_failed st)
          (records_found st) (records_deleted st) (records_failed st)
          (bytes_freed st) (errors st).
Definition reset_records_deleted (st : Stats) : Stats :=
  mkStats (files_found st) (files_deleted st) (files_failed st)
          (records_found st) 0 (records_failed st)
          (bytes_freed st) (errors st).

(** A computation of the job: it ends with an exception or a value, and
    in both cases with the store as it has left it. *)
Definition C (A : Type) : Type := Store → (exn + A) * Store.

Definition ret {A} (a : A) : C A := λ s, (inr a, s).
Definition bind {A B} (m : C A) (k : A → C B) : C B :=
  λ s, match m s with
       | (inr a, s') => k a s'
       | (inl e, s') => (inl e, s')
       end.

(** What [async with] is given: an asynchronous context manager, or an
    object that is none, such as the asynchronous generator a call of an
    [async def] with a [yield] returns. *)
Inductive ContextExpr := AsyncContextManager | AsyncGenerator.

Definition not_a_context_manager : exn :=
  TypeError
    "'async_generator' object does not support the asynchronous context manager protocol".

(** [async with obj as db: body]: the statement looks up [__aenter__]
    and [__aexit__] on [obj] and raises [TypeError] when they are missing,
    before [body] starts. *)
Definition async_with {A} (obj : ContextExpr) (body : C A) : C A :=
  match obj with
  | AsyncContextManager => body
  | AsyncGenerator => λ s, (inl not_a_context_manager, s)
  end.

(** core/database.py:146-174: [get_db_session] is an [async def] with a
    [yield], written for FastAPI's [Depends]; it carries no
    [@asynccontextmanager]. *)
Definition get_db_session : ContextExpr := AsyncGenerator.

Section cleanup_service.
(** [settings.UPLOAD_DIR] *)
Variable storage_path : string.
(** [self.storage_path / p] as pathlib resolves it, relative to the
    storage directory. *)
Variable resolve : string → string.

Definition full_path (p : string) : string := storage_path +:+ "/" +:+ p.

(** [str(e)] for the [OSError] of a refused [unlink] and of a [stat] on a
    missing file. *)
Definition permission_denied (path : string) : string :=
  "[Errno 13] Permission denied: '" +:+ path +:+ "'".
Definition no_such_file (path : string) : string :=
  "[Errno 2] No such file or directory: '" +:+ path +:+ "'".

(** [select(StorageFile.file_path).where(StorageFile.deleted_at.is_(None))]
    and the set built from its rows. *)
Definition db_file_paths (s : Store) : exn + gset string :=
  match StorageFile_file_path with
  | inl e => inl e
  | inr column =>
      inr (list_to_set
             ((λ x, column x.2) <$>
                filter (λ x, deleted_at x.2 = None)
                       (map_to_list (storage_files s))))
  end.

Definition find_orphaned_files (older_than_hours : Z) (now : datetime)
    (s : Store) : exn + list string :=
  let cutoff_time := now - hours older_than_hours in
  if negb (storage_path_exists s) then inr []
  else
    match db_file_paths s with
    | inl e => inl e
    | inr paths =>
        inr ((λ x, x.1) <$>
               filter (λ x, ¬ (st_mtime x.2 > cutoff_time) ∧ x.1 ∉ paths)
                      (map_to_list (disk s)))
    end.

(** The loop of [find_orphaned_database_records]: the first statement
    of its body reads [db_file.file_path]. *)
Fixpoint missing_on_disk (s : Store) (db_files : list (Z * StorageFile))
  : exn + list (Z * StorageFile) :=
  match db_files with
  | [] => inr []
  | (id, db_file) :: rest =>
      match file_path db_file with
      | inl e => inl e
      | inr p =>
          match missing_on_disk s rest with
          | inl e => inl e
          | inr orphaned =>
              inr (if bool_decide (is_Some (disk s !! resolve p)) then orphaned
                   else (id, db_file) :: orphaned)
          end
      end
  end.

Definition find_orphaned_database_records (older_than_hours : Z)
    (now : datetime) (s : Store) : exn + list (Z * StorageFile) :=
  let cutoff_time := now - hours older_than_hours in
  missing_on_disk s
    (filter (λ x, deleted_at x.2 = None ∧ created_at x.2 < cutoff_time)
            (map_to_list (storage_files s))).

(** The loop of [cleanup_orphaned_files]; its [try] catches the
    [OSError] of [stat] and [unlink]. *)
Fixpoint orphaned_files_loop (dry_run : bool) (orphaned : list string)
    (stats : Stats) (s : Store) : Stats * Store :=
  match orphaned with
  | [] => (stats, s)
  | p :: rest =>
      match disk s !! p with
      | None =>
          orphaned_files_loop dry_run rest
            (file_failed ("Failed to delete " +:+ full_path p +:+ ": "
                            +:+ no_such_file (full_path p)) stats) s
      | Some f =>
          let file_size := st_size f in
          if negb dry_run then
            if removable f then
              orphaned_files_loop dry_run rest (file_deleted file_size stats)
                (set_disk (delete p (disk s)) s)
            else
              orphaned_files_loop dry_run rest
                (file_failed ("Failed to delete " +:+ full_path p +:+ ": "
                                +:+ permission_denied (full_path p)) stats) s
          else orphaned_files_loop dry_run rest (would_free file_size stats) s
      end
  end.

Definition cleanup_orphaned_files (dry_run : bool) (now : datetime)
  : C Stats := λ s,
  match find_orphaned_files 24 now s with
  | inl e => (inl e, s)
  | inr orphaned =>
      let stats := mkStats (Z.of_nat (length orphaned)) 0 0 0 0 0 0 [] in
      let '(stats, s) := orphaned_files_loop dry_run orphaned stats s in
      (inr (if dry_run then reset_files_deleted stats else stats), s)
  end.

(** The loop of [cleanup_orphaned_database_records].  Inside [try]:
    the soft delete and the count when the run is not dry, then a
    [logger.info] whose arguments read [record.file_path]; [except
    Exception] counts the record as failed.  The soft delete is written
    back by the commit after the loop. *)
Fixpoint orphaned_records_loop (dry_run : bool) (now : datetime)
    (orphaned : list (Z * StorageFile)) (stats : Stats) (s : Store)
  : Stats * Store :=
  match orphaned with
  | [] => (stats, s)
  | (id, record) :: rest =>
      let '(stats, s) :=
        if negb dry_run then
          (record_deleted stats,
           set_files (<[id := on_update now (soft_delete now record)]>
                        (storage_files s)) s)
        else (stats, s) in
      match file_path record with
      | inl e =>
          orphaned_records_loop dry_run now rest
            (record_failed ("Failed to delete record " +:+ str_int id +:+ ": "
                              +:+ str_exn e) stats) s
      | inr _ => orphaned_records_loop dry_run now rest stats s
      end
  end.

Definition cleanup_orphaned_database_records (dry_run : bool)
    (now : datetime) : C Stats := λ s,
  match find_orphaned_database_records 24 now s with
  | inl e => (inl e, s)
  | inr orphaned =>
      let stats := mkStats 0 0 0 (Z.of_nat (length orphaned)) 0 0 0 [] in
      let '(stats, s) := orphaned_records_loop dry_run now orphaned stats s in
      (inr (if dry_run then reset_records_deleted stats else stats), s)
  end.

(** The loop of [cleanup_soft_deleted_files].  The first statement
    inside [try] reads [db_file.file_path]; [except Exception] counts
    the record in [files_failed].  After that statement: a failing
    [unlink] leaves the [try] body before the record is deleted. *)
Fixpoint soft_deleted_loop (dry_run : bool)
    (soft_deleted : list (Z * StorageFile)) (stats : Stats) (s : Store)
  : Stats * Store :=
  match soft_deleted with
  | [] => (stats, s)
  | (id, db_file) :: rest =>
      let delete_record (stats : Stats) (s : Store) :=
        if negb dry_run then
          soft_deleted_loop dry_run rest (record_deleted stats)
            (set_files (delete id (storage_files s)) s)
        else soft_deleted_loop dry_run rest stats s in
      match file_path db_file with
      | inl e =>
          soft_deleted_loop dry_run rest
            (file_failed ("Failed to delete " +:+ str_int id +:+ ": "
                            +:+ str_exn e) stats) s
      | inr p =>
          match disk s !! resolve p with
          | Some f =>
              let file_size := st_size f in
              if negb dry_run then
                if removable f then
                  delete_record (file_deleted file_size stats)
                    (set_disk (delete (resolve p) (disk s)) s)
                else
                  soft_deleted_loop dry_run rest
                    (file_failed ("Failed to delete " +:+ str_int id +:+ ": "
                                    +:+ permission_denied (full_path p)) stats) s
              else delete_record (would_free file_size stats) s
          | None => delete_record stats s
          end
      end
  end.

(** The query of [cleanup_soft_deleted_files]:
    [deleted_at IS NOT NULL AND deleted_at < cutoff_time]. *)
Definition find_soft_deleted (older_than_days : Z) (now : datetime)
    (s : Store) : list (Z * StorageFile) :=
  let cutoff_time := now - days older_than_days in
  filter (λ x, deleted_at x.2 ≠ None
               ∧ default 0 (deleted_at x.2) < cutoff_time)
         (map_to_list (storage_files s)).

Definition cleanup_soft_deleted_files (older_than_days : Z) (dry_run : bool)
    (now : datetime) (s : Store) : Stats * Store :=
  let soft_deleted := find_soft_deleted older_than_days now s in
  let stats :=
    mkStats (Z.of_nat (length soft_deleted)) 0 0 0 0 0 0 [] in
  let '(stats, s) := soft_deleted_loop dry_run soft_deleted stats s in
  (if dry_run then reset_records_deleted (reset_files_deleted stats)
   else stats, s).

(** The ["database"] part of [get_storage_stats]. *)
Record DatabaseStats := mkDatabaseStats {
  total_files : Z;
  active_files : Z;
  deleted_files : Z;
  active_size_bytes : Z;
  total_size_bytes : Z
}.

Definition sum_sizes (l : list (Z * StorageFile)) : Z :=
  foldr (λ x acc, file_size x.2 + acc) 0 l.

Definition get_storage_stats (s : Store) : DatabaseStats :=
  let rows := map_to_list (storage_files s) in
  let live := filter (λ x, deleted_at x.2 = None) rows in
  let gone := filter (λ x, deleted_at x.2 ≠ None) rows in
  {| total_files := Z.of_nat (length rows);
     active_files := Z.of_nat (length live);
     deleted_files := Z.of_nat (length gone);
     active_size_bytes := sum_sizes live;
     total_size_bytes := sum_sizes rows |}.

(** The result dictionary of [run_cleanup_job]; a mode that was not
    run leaves its entry the empty dictionary, [None] here. *)
Record Report := mkReport {
  dry_run_flag : bool;
  orphaned_files : option Stats;
  orphaned_records : option Stats;
  soft_deleted : option Stats;
  stats_before : DatabaseStats;
  stats_after : DatabaseStats
}.

(** [if flag: results[key] = await mode] *)
Definition when (flag : bool) (mode : C Stats) : C (option Stats) :=
  if flag then bind mode (λ st, ret (Some st)) else ret None.

Definition run_cleanup_job (dry_run cleanup_orphaned cleanup_records
    cleanup_soft_deleted : bool) (soft_deleted_days : Z) (now : datetime)
  : C Report :=
  async_with get_db_session
    (bind (λ s, (inr (get_storage_stats s), s)) (λ before,
     bind (when cleanup_orphaned (cleanup_orphaned_files dry_run now)) (λ r1,
     bind (when cleanup_records
             (cleanup_orphaned_database_records dry_run now)) (λ r2,
     bind (when cleanup_soft_deleted
             (λ s, let '(st, s) :=
                     cleanup_soft_deleted_files soft_deleted_days dry_run now s in
                   (inr st, s))) (λ r3,
     λ s, (inr (mkReport dry_run r1 r2 r3 before (get_storage_stats s)), s)))))).

End cleanup_service.

(** The records of a workspace with status [active], which the
    specification takes as the ground truth for its quota counters. *)
Definition active_records (w : Z) (s : Store) : list (Z * StorageFile) :=
  filter (λ x, workspace_id x.2 = w ∧ status x.2 = ACTIVE)
         (map_to_list (storage_files s)).

Definition quota_matches_active (w : Z) (s : Store) : Prop :=
  ∃ q, storage_quotas s !! w = Some q ∧
       used_storage_bytes q = sum_sizes (active_records w s) ∧
       used_files q = Z.of_nat (length (active_records w s)).

End Cleanup.

(** ** service.py: what the operations leave behind *)

Section service_notions.
Import Drivers StorageService.
Context {D : Type}.
Implicit Types (w : World D).

(** The exception of [download_file] and [generate_signed_url] for a
    soft-deleted record. *)
Definition deleted_error : exn :=
  HTTPException HTTP_404_NOT_FOUND "File not found or has been deleted".

(** The quota the service works on: the stored one, or the default
    [get_or_create_quota] creates. *)
Definition quota_of (self_ws : Z) w : StorageQuota :=
  default default_quota (storage_quotas w !! self_ws).

(** The entries [_log_access] adds for a file that has its row: one,
    or none when the table refuses the insert. *)
Definition logged w (file_id user_id : Z) (action : string)
  : list StorageAccessLog :=
  if log_write_fails w then []
  else [mkStorageAccessLog file_id user_id action].

(** What an operation that has done its work returns: the value, or
    the exception of the column read that follows a refused log
    insert. *)
Definition unless_log_refused {A} w (a : A) : exn + A :=
  if log_write_fails w then inl PendingRollbackError else inr a.

(** The record [upload_file] creates for what the driver stored. *)
Definition uploaded_record (self_ws : Z) (now : datetime) (size : Z)
    (filename ctype : string) (user_id : Z) (folder : option string)
    (public : bool) (expires : option datetime) (ur : UploadResult)
    (minio : bool) : StorageFile :=
  {| file_key := ur_file_key ur;
     original_filename := filename;
     content_type := ctype;
     file_size := size;
     status := ACTIVE;
     storage_provider := if minio then MINIO else S3;
     workspace_id := self_ws;
     uploaded_by := user_id;
     folder_path := folder;
     is_public := public;
     expires_at := expires;
     deleted_at := None;
     created_at := now;
     updated_at := now |}.

(** The access log after an operation started in [w]: one more entry
    when the operation returned a value, none when it raised. *)
Definition log_trail {A} w (out : (exn + A) * World D)
    (file_id user_id : Z) (action : string) : Prop :=
  storage_access_logs out.2
  = storage_access_logs w
      ++ match out.1 with
         | inr _ => [mkStorageAccessLog file_id user_id action]
         | inl _ => []
         end.

End service_notions.

(** ** drivers: key generation and the other operations of the MinIO driver *)

(** The character ['.']. *)
Definition dot : Ascii.ascii := Ascii.ascii_of_nat 46.

(** [filename.rsplit('.', 1)] for a name with a dot: the part before the
    last dot and the part after it; [None] for a name without one. *)
Fixpoint rsplit_dot (s : string) : option (string * string) :=
  match s with
  | EmptyString => None
  | String c s' =>
      match rsplit_dot s' with
      | Some (name, ext) => Some (String c name, ext)
      | None => if Ascii.eqb c dot then Some (EmptyString, s') else None
      end
  end.

(** [_generate_file_key], the same in both drivers, with the value of
    [str(uuid4())] passed in. *)
Definition _generate_file_key (prefix unique_id filename : string) : string :=
  match rsplit_dot filename with
  | Some (name, ext) => prefix +:+ unique_id +:+ "_" +:+ name +:+ "." +:+ ext
  | None => prefix +:+ unique_id +:+ "_" +:+ filename
  end.

(** [S3StorageDriver.get_workspace_prefix] *)
Definition s3_workspace_prefix (workspace : string) : string :=
  "workspaces/" +:+ workspace +:+ "/files/".

Module MinIO.
Import Drivers.

(** *** The other client calls, on the store of [Drivers]

    As the S3 protocol has them: a call on an unreachable endpoint raises
    a transport error; a call on a bucket that does not exist, or for a
    key the bucket does not hold, is answered with an S3 error; a copy of
    an object onto itself is refused. *)

Definition with_bucket {A} (bucket : string) (b : Backend)
    (k : gmap string StoredObject → exn + A) : exn + A :=
  if negb (reachable b) then inl (OtherError "connection error")
  else match buckets b !! bucket with
       | None => inl (S3Error "NoSuchBucket")
       | Some objs => k objs
       end.

Definition set_bucket (bucket : string) (objs : gmap string StoredObject)
    (b : Backend) : Backend :=
  mkBackend (reachable b) (<[bucket := objs]> (buckets b)).

Definition bucket_exists (bucket : string) (b : Backend) : exn + bool :=
  if negb (reachable b) then inl (OtherError "connection error")
  else inr (bool_decide (is_Some (buckets b !! bucket))).

Definition make_bucket (bucket : string) (b : Backend) : exn + Backend :=
  if negb (reachable b) then inl (OtherError "connection error")
  else match buckets b !! bucket with
       | Some _ => inl (S3Error "BucketAlreadyOwnedByYou")
       | None => inr (set_bucket bucket ∅ b)
       end.

Definition put_object (bucket key : string) (o : StoredObject) (b : Backend)
  : exn + Backend :=
  with_bucket bucket b (λ objs, inr (set_bucket bucket (<[key := o]> objs) b)).

Definition stat_object (bucket key : string) (b : Backend)
  : exn + StoredObject :=
  with_bucket bucket b (λ objs,
    match objs !! key with
    | Some o => inr o
    | None => inl (S3Error "NoSuchKey")
    end).

Definition get_object := stat_object.

Definition copy_object (bucket dst src : string) (b : Backend)
  : exn + Backend :=
  with_bucket bucket b (λ objs,
    match objs !! src with
    | Some o =>
        if bool_decide (src = dst) then inl (S3Error "InvalidRequest")
        else inr (set_bucket bucket (<[dst := o]> objs) b)
    | None => inl (S3Error "NoSuchKey")
    end).

(** *** [MinIOStorageDriver] *)

Section driver.
(** [str(workspace_id).lower()] *)
Variable workspace : string.

Definition bucket_name : string := minio_bucket_name workspace.

Definition get_workspace_prefix : string := "files/".

(** Every exception of the two client calls leaves the function: the
    S3 error is logged and raised again, others are not caught. *)
Definition _ensure_bucket_exists (b : Backend) : (exn + unit) * Backend :=
  match bucket_exists bucket_name b with
  | inl e => (inl e, b)
  | inr true => (inr (), b)
  | inr false =>
      match make_bucket bucket_name b with
      | inl e => (inl e, b)
      | inr b' => (inr (), b')
      end
  end.

Definition upload_file (unique_id : string) (file_data : list Byte.byte)
    (filename content_type : string) (b : Backend)
  : (exn + UploadResult) * Backend :=
  match _ensure_bucket_exists b with
  | (inl e, b) => (inl e, b)
  | (inr _, b) =>
      let file_key := _generate_file_key get_workspace_prefix unique_id filename in
      let file_size := Z.of_nat (length file_data) in
      match put_object bucket_name file_key
              (mkStoredObject file_data content_type) b with
      | inl e => (inl e, b)
      | inr b' =>
          (inr (mkUploadResult file_key filename content_type file_size), b')
      end
  end.

(** [stat.content_type or "application/octet-stream"] *)
Definition content_type_or_default (ct : string) : string :=
  if bool_decide (ct = EmptyString) then "application/octet-stream" else ct.

Definition download_file (file_key : string) (b : Backend)
  : (exn + (list Byte.byte * FileMetadata)) * Backend :=
  match get_object bucket_name file_key b with
  | inl e => (inl e, b)
  | inr response =>
      match stat_object bucket_name file_key b with
      | inl e => (inl e, b)
      | inr stat =>
          (inr (obj_content response,
                mkFileMetadata file_key
                  (content_type_or_default (obj_content_type stat))
                  (Z.of_nat (length (obj_content stat)))), b)
      end
  end.

Definition delete_file : string → Backend → (exn + bool) * Backend :=
  MinIO_delete_file workspace.

Definition file_exists (file_key : string) (b : Backend) : exn + bool :=
  match stat_object bucket_name file_key b with
  | inr _ => inr true
  | inl (S3Error _) => inr false
  | inl e => inl e
  end.

Definition copy_file (source_key destination_key : string) (b : Backend)
  : (exn + bool) * Backend :=
  match copy_object bucket_name destination_key source_key b with
  | inr b' => (inr true, b')
  | inl (S3Error _) => (inr false, b)
  | inl e => (inl e, b)
  end.

(** [move_file]: copy, then delete; whatever either raises is caught
    and turned into [False]. *)
Definition move_file (source_key destination_key : string) (b : Backend)
  : bool * Backend :=
  match copy_file source_key destination_key b with
  | (inr true, b1) =>
      match delete_file source_key b1 with
      | (inr deleted, b2) => (deleted, b2)
      | (inl _, b2) => (false, b2)
      end
  | (inr false, b1) => (false, b1)
  | (inl _, b1) => (false, b1)
  end.

End driver.
End MinIO.

(** What the bucket of a workspace holds under a key. *)
Definition object_at (workspace key : string) (b : Drivers.Backend)
  : option Drivers.StoredObject :=
  Drivers.buckets b !! Drivers.minio_bucket_name workspace ≫= (.!! key).

(** ** Sample states *)

(** An existing storage directory with one file written at time 1000,
    and no record at all. *)
Definition orphan_store : Cleanup.Store :=
  Cleanup.mkStore ∅ ∅ {[ "files/a.bin" := Cleanup.mkDiskFile 10 1000 true ]} true.

(** Two soft-deleted records, 29 and 31 days old at [gc_now], each with
    its file in the storage directory. *)
Definition gc_now : datetime := 10000000.

Definition rec_29 : StorageFile :=
  mkStorageFile "files/a.bin" "a.bin" "text/plain" 10 DELETED MINIO
    1 2 None false None (Some (gc_now - days 29)) 0 0.
Definition rec_31 : StorageFile :=
  mkStorageFile "files/b.bin" "b.bin" "text/plain" 20 DELETED MINIO
    1 2 None false None (Some (gc_now - days 31)) 0 0.

Definition gc_store : Cleanup.Store :=
  Cleanup.mkStore {[ 1 := rec_29; 2 := rec_31 ]} ∅
    {[ "files/a.bin" := Cleanup.mkDiskFile 10 0 true;
       "files/b.bin" := Cleanup.mkDiskFile 20 0 true ]} true.

(** Workspace 1 with one active record of 100 bytes and counters that
    say 500 bytes in 5 files. *)
Definition drift_store : Cleanup.Store :=
  Cleanup.mkStore
    {[ 1 := mkStorageFile "files/c.bin" "c.bin" "text/plain" 100 ACTIVE MINIO
              1 2 None false None None 0 0 ]}
    {[ 1 := mkStorageQuota None None None 500 5 true ]}
    ∅ true.

(** Two live records created at time 0, one soft-deleted record, and
    three files in the storage directory. *)
Definition mixed_store : Cleanup.Store :=
  Cleanup.mkStore
    {[ 1 := mkStorageFile "files/a.bin" "a.bin" "text/plain" 10 ACTIVE MINIO
              1 2 None false None None 0 0;
       2 := mkStorageFile "files/c.bin" "c.bin" "text/plain" 100 ACTIVE MINIO
              1 2 None false None None 0 0;
       3 := rec_31 ]}
    {[ 1 := mkStorageQuota None None None 130 3 true ]}
    {[ "files/a.bin" := Cleanup.mkDiskFile 10 0 true;
       "files/b.bin" := Cleanup.mkDiskFile 20 0 true;
       "files/x.bin" := Cleanup.mkDiskFile 5 0 true ]} true.

(** No record and no storage directory. *)
Definition empty_store : Cleanup.Store := Cleanup.mkStore ∅ ∅ ∅ false.

#[local] Existing Instance Drivers.memory_driver.

(** A store with one bucket holding one object. *)
Definition sample_backend : Drivers.Backend :=
  Drivers.mkBackend true
    {[ "workspace-a" :=
         {[ "files/k1" := Drivers.mkStoredObject [] "text/plain" ]} ]}.

(** The record of [sample_world]. *)
Definition sample_file : StorageFile :=
  mkStorageFile "workspace-a/report.txt" "report.txt" "text/plain"
    100 ACTIVE S3 10 7 None false None None 0 0.

(** Workspace 10 with one 100-byte file whose object the driver no
    longer has, and 500 bytes in 5 files on its counters. *)
Definition sample_world : StorageService.World Drivers.MemoryDriver :=
  StorageService.mkWorld
    {[ 1 := mkStorageFile "workspace-a/report.txt" "report.txt" "text/plain"
              100 ACTIVE S3 10 7 None false None None 0 0 ]}
    {[ 10 := mkStorageQuota None None None 500 5 true ]}
    [] false (Drivers.mkMemoryDriver "a" ∅) [].

(** The same, with an access-log table that refuses every insert. *)
Definition failing_log_world : StorageService.World Drivers.MemoryDriver :=
  StorageService.set_log_write_fails true sample_world.

(** Workspace 10 at the boundary of the example: 9,500,000 of
    10,000,000 bytes used. *)
Definition boundary_quota : StorageQuota :=
  mkStorageQuota (Some 10000000) None None 9500000 0 true.

Definition boundary_world : StorageService.World Drivers.MemoryDriver :=
  StorageService.mkWorld ∅ {[ 10 := boundary_quota ]} [] false
    (Drivers.mkMemoryDriver "a" ∅) [].

Definition zeros (n : Z) : list Byte.byte := replicate (Z.to_nat n) Byte.x00.

(** Workspace 10 with one file that expires at time 100. *)
Definition expiring_file : StorageFile :=
  mkStorageFile "workspace-a/offer.pdf" "offer.pdf" "application/pdf"
    100 ACTIVE S3 10 7 None false (Some 100) None 0 0.

Definition expiring_world : StorageService.World Drivers.MemoryDriver :=
  StorageService.mkWorld {[ 1 := expiring_file ]} ∅ [] false
    (Drivers.mkMemoryDriver "a" ∅) [].

(** Workspace 10 with one file, two log rows of it and no quota row. *)
Definition logged_world : StorageService.World Drivers.MemoryDriver :=
  StorageService.mkWorld {[ 1 := sample_file ]} ∅
    [mkStorageAccessLog 1 7 "upload"; mkStorageAccessLog 1 99 "download"]
    false
    (Drivers.mkMemoryDriver "a"
       {[ "workspace-a/report.txt" := Drivers.mkStoredObject [] "text/plain" ]})
    [].

(* ================================================================== *)
(** * Properties *)
(* ================================================================== *)

(** ** Quota admission *)

Example can_upload_small :
  can_upload_file (mkStorageQuota (Some 10) None None 3 0 true) 8
  = (false, "Storage quota exceeded. Available: 7 bytes").
Proof. vm_compute. reflexivity. Qed.

(** C6: the code at [max_files = 0], [used_files = 0], enforcement on,
    one byte to upload.  By the stated rule (only a null limit is
    unlimited, as the column comments say) the file-count check fails,
    [0 >= 0]; the code skips the check for a limit of zero and admits
    the upload. *)
Lemma can_upload_zero_limit_admitted :
  let q := mkStorageQuota None (Some 0) None 0 0 true in
  limit_fails null_only q 1 FileCountLimit = true ∧
  canUpload_spec null_only q 1 = (false, "File count limit of 0 reached") ∧
  can_upload_file q 1 = (true, "Upload allowed").
Proof. vm_compute. done. Qed.

(** What the check computes for every quota and size: the ordered
    search over file-size, storage and file-count limits returning the
    first failing reason, with a limit that is null or zero skipped. *)
Lemma can_upload_file_first_failing (q : StorageQuota) (size : Z) :
  can_upload_file q size = canUpload_spec null_or_zero q size ∧
  (enforce_quota q = false → fst (can_upload_file q size) = true) ∧
  (∀ l, limit_value q l = None → limit_fails null_or_zero q size l = false).
Proof.
  split; [|split].
  - unfold can_upload_file, canUpload_spec, first_failing, limit_fails,
      null_or_zero; simpl.
    destruct (enforce_quota q); simpl; [|done].
    rewrite !negb_involutive.
    destruct (truthy (max_file_size_bytes q) && _); [done|].
    destruct (truthy (max_storage_bytes q) && _); [done|].
    destruct (truthy (max_files q) && _); done.
  - intros He. unfold can_upload_file. by rewrite He.
  - intros l Hl. unfold limit_fails, null_or_zero. by rewrite Hl.
Qed.

(** ** The cleanup service *)

Section cleanup_facts.
Import Cleanup.
Variable storage_path : string.
Variable resolve : string → string.

Lemma find_orphaned_files_eq (older : Z) (now : datetime) (s : Store) :
  find_orphaned_files older now s
  = if storage_path_exists s then inl no_class_attribute else inr [].
Proof. unfold find_orphaned_files. by destruct (storage_path_exists s). Qed.

(** C7: whenever the storage directory exists, the detector raises
    [AttributeError] at its query, before it looks at any file and
    whatever the age threshold and the clock reading: one hour or
    twenty-five hours after a file was written alike.  Without the
    directory it returns the empty list.  No file is ever reported. *)
Theorem find_orphaned_files_raises (older : Z) (now : datetime) (s : Store) :
  find_orphaned_files older now s
  = (if storage_path_exists s then inl no_class_attribute else inr []) ∧
  ∀ l p, find_orphaned_files older now s = inr l → p ∉ l.
Proof.
  split; [apply find_orphaned_files_eq|].
  intros l p. rewrite find_orphaned_files_eq.
  destruct (storage_path_exists s); [done|].
  intros [= <-]. apply not_elem_of_nil.
Qed.

Lemma missing_on_disk_eq (s : Store) (l : list (Z * StorageFile)) :
  missing_on_disk resolve s l
  = match l with [] => inr [] | _ => inl no_instance_attribute end.
Proof. by destruct l as [|[i r] l]. Qed.

Lemma cleanup_orphaned_files_eq (dry : bool) (now : datetime) (s : Store) :
  cleanup_orphaned_files storage_path dry now s
  = (if storage_path_exists s then inl no_class_attribute
     else inr empty_stats, s).
Proof.
  unfold cleanup_orphaned_files. rewrite find_orphaned_files_eq.
  destruct (storage_path_exists s); [done|]. by destruct dry.
Qed.

Lemma cleanup_orphaned_database_records_eq (dry : bool) (now : datetime)
    (s : Store) :
  cleanup_orphaned_database_records resolve dry now s
  = (match filter (λ x : Z * StorageFile,
                     deleted_at x.2 = None ∧ created_at x.2 < now - hours 24)
                  (map_to_list (storage_files s)) with
     | [] => inr empty_stats
     | _ => inl no_instance_attribute
     end, s).
Proof.
  unfold cleanup_orphaned_database_records, find_orphaned_database_records.
  rewrite missing_on_disk_eq.
  destruct (filter _ _); [|done]. by destruct dry.
Qed.

(** Every turn of the soft-deleted loop ends in its [except] branch. *)
Lemma soft_deleted_loop_fails_all (dry : bool) (l : list (Z * StorageFile)) :
  ∀ st s,
    let out := soft_deleted_loop storage_path resolve dry l st s in
    out.2 = s ∧
    files_found out.1 = files_found st ∧
    files_deleted out.1 = files_deleted st ∧
    records_deleted out.1 = records_deleted st ∧
    bytes_freed out.1 = bytes_freed st ∧
    files_failed out.1 = files_failed st + Z.of_nat (length l) ∧
    length (errors out.1) = (length (errors st) + length l)%nat.
Proof.
  induction l as [|[i r] l IH]; intros st s; simpl.
  - repeat split; lia.
  - destruct (IH (file_failed ("Failed to delete " +:+ str_int i +:+ ": "
                                 +:+ str_exn no_instance_attribute) st) s)
      as (H1 & H2 & H3 & H4 & H5 & H6 & H7).
    simpl in *. rewrite length_app in H7. simpl in H7.
    repeat split; try done; lia.
Qed.

Lemma elem_of_find_soft_deleted (d : Z) (now : datetime) (s : Store)
    (i : Z) (r : StorageFile) :
  (i, r) ∈ find_soft_deleted d now s ↔
  storage_files s !! i = Some r ∧
  ∃ t, deleted_at r = Some t ∧ t < now - days d.
Proof.
  unfold find_soft_deleted.
  rewrite list_elem_of_filter, elem_of_map_to_list. simpl. split.
  - intros [[Hn Hlt] Hl]. split; [done|].
    destruct (deleted_at r) as [t|]; [|done]. eauto.
  - intros [Hl (t & -> & Hlt)]. done.
Qed.

Lemma cleanup_soft_deleted_files_eq (d : Z) (dry : bool) (now : datetime)
    (s : Store) :
  let out := cleanup_soft_deleted_files storage_path resolve d dry now s in
  out.2 = s ∧
  files_found out.1 = Z.of_nat (length (find_soft_deleted d now s)) ∧
  files_failed out.1 = files_found out.1 ∧
  files_deleted out.1 = 0 ∧ records_deleted out.1 = 0 ∧
  bytes_freed out.1 = 0 ∧
  length (errors out.1) = length (find_soft_deleted d now s).
Proof.
  unfold cleanup_soft_deleted_files.
  pose proof (soft_deleted_loop_fails_all dry (find_soft_deleted d now s)
                (mkStats (Z.of_nat (length (find_soft_deleted d now s)))
                         0 0 0 0 0 0 []) s) as H.
  destruct (soft_deleted_loop _ _ _ _ _ _) as [st' s'].
  simpl in H. destruct H as (H1 & H2 & H3 & H4 & H5 & H6 & H7).
  destruct dry; simpl; repeat split; try done; lia.
Qed.

(** C8: the soft-deleted mode, dry or not, removes nothing.  Every
    record the query finds (soft-deleted before [now] minus the
    retention time, so the one of 31 days and not the one of 29) is
    counted in [files_failed], with one error message, and the record
    rows and the files are all as before: the row of the 31-day-old
    record is still there, and so is its file. *)
Theorem cleanup_soft_deleted_files_removes_nothing (d : Z) (dry : bool)
    (now : datetime) (s : Store) :
  let out := cleanup_soft_deleted_files storage_path resolve d dry now s in
  out.2 = s ∧
  (∀ i r, (i, r) ∈ find_soft_deleted d now s ↔
          storage_files s !! i = Some r ∧
          ∃ t, deleted_at r = Some t ∧ t < now - days d) ∧
  files_found out.1 = Z.of_nat (length (find_soft_deleted d now s)) ∧
  files_failed out.1 = files_found out.1 ∧
  files_deleted out.1 = 0 ∧ records_deleted out.1 = 0 ∧
  bytes_freed out.1 = 0 ∧
  length (errors out.1) = length (find_soft_deleted d now s).
Proof.
  intros out.
  destruct (cleanup_soft_deleted_files_eq d dry now s)
    as (H1 & H2 & H3 & H4 & H5 & H6 & H7).
  split; [done|]. split; [apply elem_of_find_soft_deleted|done].
Qed.

Lemma run_cleanup_job_eq (dry m1 m2 m3 : bool) (d : Z) (now : datetime)
    (s : Store) :
  run_cleanup_job storage_path resolve dry m1 m2 m3 d now s
  = (inl not_a_context_manager, s).
Proof. done. Qed.

(** C4: the job returns no report, on the first run and on the second:
    each call raises [TypeError] at its [async with] and leaves the store
    as it was.  Called on its own, the soft-deleted mode repeats on a
    second run the counts of the first: it finds and fails the same
    records again. *)
Theorem run_cleanup_job_gives_no_report (m1 m2 m3 : bool) (d : Z)
    (now : datetime) (s : Store) :
  let first := run_cleanup_job storage_path resolve false m1 m2 m3 d now s in
  let second :=
    run_cleanup_job storage_path resolve false m1 m2 m3 d now first.2 in
  first.1 = inl not_a_context_manager ∧
  second = (inl not_a_context_manager, s) ∧
  (∀ report, second.1 ≠ inr report) ∧
  let gc1 := cleanup_soft_deleted_files storage_path resolve d false now s in
  let gc2 := cleanup_soft_deleted_files storage_path resolve d false now gc1.2 in
  files_found gc2.1 = files_found gc1.1 ∧
  files_failed gc2.1 = files_found gc1.1.
Proof.
  simpl. rewrite !run_cleanup_job_eq. simpl.
  split; [done|]. split; [done|]. split; [done|].
  destruct (cleanup_soft_deleted_files_eq d false now s)
    as (H1 & H2 & H3 & _).
  rewrite H1.
  destruct (cleanup_soft_deleted_files_eq d false now s)
    as (_ & H2' & H3' & _).
  lia.
Qed.

(** C1: nothing in the cleanup reconciles the counters.  The job
    raises at its [async with] and leaves the store as it was; each of
    the three modes, called on its own, leaves the quota table and the
    record rows as they were.  So a workspace whose counters agree with
    its active records before agrees after, and one whose counters have
    drifted keeps the drift. *)
Theorem cleanup_never_reconciles (dry m1 m2 m3 : bool) (d : Z)
    (now : datetime) (s : Store) :
  (run_cleanup_job storage_path resolve dry m1 m2 m3 d now s).2 = s ∧
  (cleanup_orphaned_files storage_path dry now s).2 = s ∧
  (cleanup_orphaned_database_records resolve dry now s).2 = s ∧
  (cleanup_soft_deleted_files storage_path resolve d dry now s).2 = s ∧
  ∀ w, quota_matches_active w
         (run_cleanup_job storage_path resolve dry m1 m2 m3 d now s).2
       ↔ quota_matches_active w s.
Proof.
  rewrite run_cleanup_job_eq, cleanup_orphaned_files_eq,
    cleanup_orphaned_database_records_eq.
  repeat split; try done.
  apply (cleanup_soft_deleted_files_eq d dry now s).
Qed.

(** X2: the orphaned-files mode never removes a file.  With the storage
    directory missing it reports all counts zero; with the directory
    there it raises the [AttributeError] of the query; the store is as
    before in both cases, dry run or not. *)
Theorem cleanup_orphaned_files_outcome (dry : bool) (now : datetime)
    (s : Store) :
  let out := cleanup_orphaned_files storage_path dry now s in
  out.2 = s ∧
  (storage_path_exists s = false → out.1 = inr empty_stats) ∧
  (storage_path_exists s = true → out.1 = inl no_class_attribute).
Proof.
  simpl. rewrite cleanup_orphaned_files_eq. simpl.
  split; [done|]. by split; intros ->.
Qed.

(** X5: the orphaned-records mode never changes a record.  When some
    record that is not soft-deleted was created more than 24 hours ago,
    it raises [AttributeError] at the first such record, whether or not
    the record has a file; when there is none, it reports all counts
    zero; the store is as before in both cases, dry run or not. *)
Theorem cleanup_orphaned_database_records_outcome (dry : bool)
    (now : datetime) (s : Store) :
  let out := cleanup_orphaned_database_records resolve dry now s in
  out.2 = s ∧
  ((∃ i r, storage_files s !! i = Some r ∧ deleted_at r = None
           ∧ created_at r < now - hours 24) →
   out.1 = inl no_instance_attribute) ∧
  ((∀ i r, storage_files s !! i = Some r → deleted_at r = None →
           now - hours 24 ≤ created_at r) →
   out.1 = inr empty_stats).
Proof.
  simpl. rewrite cleanup_orphaned_database_records_eq. simpl.
  split; [done|]. split.
  - intros (i & r & Hl & Hd & Hc).
    destruct (filter _ _) as [|x l] eqn:Hf; [|done].
    assert ((i, r) ∈ filter (λ x : Z * StorageFile,
                               deleted_at x.2 = None
                               ∧ created_at x.2 < now - hours 24)
                            (map_to_list (storage_files s))) as Hin.
    { apply list_elem_of_filter. split; [done|]. by apply elem_of_map_to_list. }
    rewrite Hf in Hin. by apply elem_of_nil in Hin.
  - intros Hnone.
    destruct (filter _ _) as [|[i r] l] eqn:Hf; [done|].
    assert ((i, r) ∈ filter (λ x : Z * StorageFile,
                               deleted_at x.2 = None
                               ∧ created_at x.2 < now - hours 24)
                            (map_to_list (storage_files s))) as Hin
      by (rewrite Hf; apply list_elem_of_here).
    apply list_elem_of_filter in Hin as [[Hd Hc] Hl%elem_of_map_to_list].
    simpl in *. pose proof (Hnone i r Hl Hd). lia.
Qed.

End cleanup_facts.

(** The job at a store whose counters have drifted: 500 bytes in 5
    files against one active record of 100 bytes, before the job and
    after. *)
Example run_cleanup_job_keeps_drift :
  let out := Cleanup.run_cleanup_job "uploads" id false true true true 30
               gc_now drift_store in
  out.1 = inl Cleanup.not_a_context_manager ∧
  Cleanup.storage_quotas out.2 !! 1
    = Some (mkStorageQuota None None None 500 5 true) ∧
  Cleanup.sum_sizes (Cleanup.active_records 1 out.2) = 100 ∧
  length (Cleanup.active_records 1 out.2) = 1%nat ∧
  ¬ Cleanup.quota_matches_active 1 out.2.
Proof.
  split; [reflexivity|]. split; [reflexivity|].
  split; [vm_compute; reflexivity|]. split; [vm_compute; reflexivity|].
  intros (q & Hq & Hb & _). vm_compute in Hq. injection Hq as <-.
  vm_compute in Hb. discriminate.
Qed.

(** The detector at a storage directory holding one file written at
    time 1000 that no record names: one hour later and twenty-five hours
    later. *)
Example find_orphaned_files_at_orphan_store :
  Cleanup.find_orphaned_files 24 (1000 + hours 1) orphan_store
    = inl Cleanup.no_class_attribute ∧
  Cleanup.find_orphaned_files 24 (1000 + hours 25) orphan_store
    = inl Cleanup.no_class_attribute.
Proof. split; reflexivity. Qed.

(** The soft-deleted mode with a retention of 30 days at the store of
    the two records soft-deleted 29 and 31 days ago: the older one is
    found, counted as failed, and is still there with its file. *)
Example cleanup_soft_deleted_files_at_gc_store :
  let out := Cleanup.cleanup_soft_deleted_files "uploads" id 30 false gc_now
               gc_store in
  out.2 = gc_store ∧
  Cleanup.files_found out.1 = 1 ∧ Cleanup.files_failed out.1 = 1 ∧
  Cleanup.files_deleted out.1 = 0 ∧ Cleanup.records_deleted out.1 = 0 ∧
  Cleanup.errors out.1
    = ["Failed to delete 2: 'StorageFile' object has no attribute 'file_path'"] ∧
  Cleanup.storage_files out.2 !! 2 = Some rec_31 ∧
  Cleanup.disk out.2 !! "files/b.bin" = Some (Cleanup.mkDiskFile 20 0 true).
Proof. vm_compute. done. Qed.

(** ** The drivers: delete *)

Section driver_facts.
Import Drivers.

(** Whatever the call inside [try] does, the driver's delete returns
    [False] exactly when the call raised the S3 error, and then leaves
    the store untouched. *)
Lemma delete_file_false_iff_S3Error {B : Type}
    (client_remove : string → string → B → exn + B)
    (bucket key : string) (b : B) :
  (delete_file client_remove bucket key b).1 = inr false ↔
  ∃ code, client_remove bucket key b = inl (S3Error code).
Proof.
  unfold delete_file.
  destruct (client_remove bucket key b) as [[c m|code|msg|msg|msg|]|b']; simpl;
    split; try done; try (by intros [? ?]); eauto.
Qed.

(** C3, amended: the MinIO driver's delete never lets the S3 error
    out; it returns [False] exactly when the store answers the removal
    with one (the bucket does not exist) and [True] on every removal the
    store accepts, whether or not the key was present; removing an
    absent key leaves the store as it was; deleting twice leaves the
    store as deleting once does, the second call returning what the
    first did. *)
Theorem delete_file_outcome (workspace key : string) (b : Backend) :
  let bucket := minio_bucket_name workspace in
  let res := (MinIO_delete_file workspace key b).1 in
  let b' := (MinIO_delete_file workspace key b).2 in
  (∀ code, res ≠ inl (S3Error code)) ∧
  (res = inr false ↔ reachable b = true ∧ buckets b !! bucket = None) ∧
  (reachable b = true → is_Some (buckets b !! bucket) →
     res = inr true ∧ has_object bucket key b' = false ∧
     (has_object bucket key b = false → b' = b)) ∧
  MinIO_delete_file workspace key b' = (res, b').
Proof.
  destruct b as [up bs].
  unfold MinIO_delete_file, delete_file, remove_object, has_object. simpl.
  generalize (minio_bucket_name workspace). intros bucket.
  destruct up; simpl.
  - destruct (bs !! bucket) as [objs|] eqn:Hb; simpl.
    + repeat split; try done.
      * intros [_ [=]].
      * by rewrite lookup_insert_eq, lookup_delete_eq.
      * intros Hk. f_equal. apply bool_decide_eq_false in Hk.
        rewrite delete_id; [by apply insert_id|].
        by apply eq_None_not_Some.
      * rewrite lookup_insert_eq. simpl.
        by rewrite insert_insert_eq, delete_delete_eq.
    + rewrite Hb. repeat split; try done.
  - repeat split; try done. by intros [? ?].
Qed.

End driver_facts.

(** C3, as stated: with the MinIO driver, removing a key the bucket
    does not hold returns [True], the first time and the second, and
    leaves the store as it was. *)
Lemma delete_absent_key_returns_true :
  Drivers.has_object "workspace-a" "files/missing" sample_backend = false ∧
  Drivers.MinIO_delete_file "a" "files/missing" sample_backend
    = (inr true, sample_backend) ∧
  Drivers.MinIO_delete_file "a" "files/missing"
    (Drivers.MinIO_delete_file "a" "files/missing" sample_backend).2
    = (inr true, sample_backend).
Proof. vm_compute. done. Qed.

(** The S3 driver's delete raises at its executor call, whatever the
    bucket, the key and the store. *)
Lemma S3_delete_file_raises (bucket key : string) (b : Drivers.Backend) :
  ∃ msg, Drivers.S3_delete_file bucket key b = (inl (TypeError msg), b).
Proof. by eexists. Qed.

(** ** The storage service *)

Section service_facts.
Import Drivers StorageService.
Context {D : Type} `{!BaseStorageDriver D}.
Implicit Types (w : World D).

Lemma get_file_other_workspace (self_ws : Z) w (file_id : Z) :
  (∀ f, storage_files w !! file_id = Some f → workspace_id f ≠ self_ws) →
  _get_file_or_404 self_ws file_id w = (inl not_found, w).
Proof.
  intros Hf. unfold _get_file_or_404.
  destruct (storage_files w !! file_id) as [f|]; [|done].
  rewrite bool_decide_eq_false_2; [done|]. by apply Hf.
Qed.

Lemma get_file_own_workspace (self_ws : Z) w (file_id : Z) (f : StorageFile) :
  storage_files w !! file_id = Some f → workspace_id f = self_ws →
  _get_file_or_404 self_ws file_id w = (inr f, w).
Proof.
  intros Hf Hw. unfold _get_file_or_404. rewrite Hf.
  by rewrite bool_decide_eq_true_2.
Qed.

(** C2, amended: a request through the service of workspace B for a file
    of another workspace A ends with the 404 "File not found" exception,
    the one an unknown file id gets, and leaves the world as it was: no
    driver call, nothing written. *)
Theorem cross_workspace_request (self_ws : Z) w (now : datetime)
    (file_id user_id : Z) (f : StorageFile) :
  storage_files w !! file_id = Some f →
  workspace_id f ≠ self_ws →
  download_file self_ws now file_id user_id w = (inl not_found, w) ∧
  (∀ hard, delete_file self_ws now file_id user_id hard w = (inl not_found, w)) ∧
  (∀ expiration operation,
     generate_signed_url self_ws now file_id user_id expiration operation w
     = (inl not_found, w)) ∧
  error_kind not_found = Some NotFound.
Proof.
  intros Hf Hw.
  assert (_get_file_or_404 self_ws file_id w = (inl not_found, w)) as Hget.
  { apply get_file_other_workspace. intros f' Hf'. congruence. }
  unfold download_file, delete_file, generate_signed_url, bind.
  rewrite Hget. done.
Qed.

(** The log write and the column read after it, for a file that has
    its row. *)
Lemma log_access_then_read {A} (file_id user_id : Z) (action : string)
    (in_session : bool) (a : A) w :
  is_Some (storage_files w !! file_id) →
  bind (_log_access file_id user_id action)
    (λ rolled_back, bind (read_columns rolled_back in_session) (λ _, ret a)) w
  = (if log_write_fails w && in_session
     then inl PendingRollbackError else inr a,
     set_logs (storage_access_logs w ++ logged w file_id user_id action) w).
Proof.
  intros Hsome. unfold bind, _log_access, log_insert_refused, logged.
  rewrite (bool_decide_eq_true_2 _ Hsome).
  destruct w as [fs qs logs fails d calls]. simpl.
  destruct fails; simpl.
  - unfold read_columns, set_logs, ret, raise. destruct in_session; simpl;
      by rewrite app_nil_r.
  - done.
Qed.

(** An admitted upload the driver has stored, as one equation. *)
Lemma upload_file_eq (self_ws : Z) w (new_id : Z) (now : datetime)
    (data : list Byte.byte) (filename ctype : string) (user_id : Z)
    (folder : option string) (public : bool) (expires : option datetime)
    (ur : UploadResult) (d1 : D) :
  fst (can_upload_file (quota_of self_ws w) (Z.of_nat (length data))) = true →
  Drivers.upload_file data filename ctype (driver w) = (inr ur, d1) →
  upload_file self_ws new_id now data filename ctype user_id folder public
    expires w
  = (unless_log_refused w
       (mkFileResponse new_id (ur_file_key ur) filename ctype
          (Z.of_nat (length data)) self_ws user_id now now),
     mkWorld
       (<[new_id := uploaded_record self_ws now (Z.of_nat (length data))
                      filename ctype user_id folder public expires ur
                      (is_minio d1)]> (storage_files w))
       (<[self_ws := add_usage (Z.of_nat (length data)) 1 (quota_of self_ws w)]>
          (storage_quotas w))
       (storage_access_logs w ++ logged w new_id user_id "upload")
       (log_write_fails w) d1 (driver_calls w ++ [CallUpload filename])).
Proof.
  intros Hok Hup. unfold quota_of in *.
  unfold upload_file. unfold bind at 1. unfold get_or_create_quota.
  destruct (storage_quotas w !! self_ws) as [q0|] eqn:Hq0; simpl in Hok |- *;
    (destruct (can_upload_file _ _) as [ok reason]; simpl in Hok; subst ok;
     simpl; unfold bind at 1; unfold call_driver; simpl; rewrite Hup;
     unfold bind at 1; unfold provider_of_driver; simpl;
     unfold bind at 1; unfold db_add; simpl;
     unfold bind at 1; unfold update_quota; simpl;
     rewrite log_access_then_read
       by (simpl; rewrite lookup_insert_eq; eauto);
     unfold unless_log_refused, logged, set_logs, uploaded_record; simpl;
     rewrite andb_true_r, ?insert_insert_eq; done).
Qed.

(** A soft delete, as one equation. *)
Lemma delete_file_soft_eq (self_ws : Z) w (now : datetime)
    (file_id user_id : Z) (f : StorageFile) :
  storage_files w !! file_id = Some f →
  workspace_id f = self_ws →
  delete_file self_ws now file_id user_id false w
  = (unless_log_refused w true,
     mkWorld (<[file_id := on_update now (soft_delete now f)]> (storage_files w))
       (storage_quotas w)
       (storage_access_logs w ++ logged w file_id user_id "delete")
       (log_write_fails w) (driver w) (driver_calls w)).
Proof.
  intros Hf Hw. unfold delete_file. unfold bind at 1.
  rewrite (get_file_own_workspace _ _ _ _ Hf Hw).
  unfold bind at 1. unfold db_update. simpl.
  rewrite log_access_then_read by (simpl; rewrite lookup_insert_eq; eauto).
  unfold unless_log_refused, logged, set_logs. simpl.
  rewrite andb_true_r. done.
Qed.

(** A hard delete during which the driver did not raise, as one
    equation: the log insert is refused, the file row being gone, and
    the call returns all the same. *)
Lemma delete_file_hard_eq (self_ws : Z) w (now : datetime)
    (file_id user_id : Z) (f : StorageFile) (deleted : bool) (d1 : D) :
  storage_files w !! file_id = Some f →
  workspace_id f = self_ws →
  driver_delete_file (file_key f) (driver w) = (inr deleted, d1) →
  delete_file self_ws now file_id user_id true w
  = (inr true,
     mkWorld (delete file_id (storage_files w))
       (<[self_ws := add_usage (- file_size f) (-1) (quota_of self_ws w)]>
          (storage_quotas w))
       (filter (λ l, log_file_id l ≠ file_id) (storage_access_logs w))
       (log_write_fails w) d1 (driver_calls w ++ [CallDelete (file_key f)])).
Proof.
  intros Hf Hw Hdel. unfold quota_of.
  unfold delete_file, bind.
  rewrite (get_file_own_workspace _ _ _ _ Hf Hw).
  unfold call_driver. rewrite Hdel. simpl.
  unfold get_or_create_quota, update_quota, db_delete, _log_access,
    log_insert_refused, read_columns, ret. simpl.
  destruct (storage_quotas w !! self_ws) as [q0|] eqn:Hq0; simpl;
    rewrite lookup_delete_eq; simpl; rewrite orb_true_r; simpl;
    unfold set_logs, set_files, set_quotas, called; simpl;
    rewrite ?insert_insert_eq; done.
Qed.

(** A download the driver has served, as one equation. *)
Lemma download_file_eq (self_ws : Z) w (now : datetime)
    (file_id user_id : Z) (f : StorageFile)
    (r : list Byte.byte * FileMetadata) (d1 : D) :
  storage_files w !! file_id = Some f →
  workspace_id f = self_ws →
  is_deleted f = false → is_expired now f = false →
  Drivers.download_file (file_key f) (driver w) = (inr r, d1) →
  download_file self_ws now file_id user_id w
  = (unless_log_refused w r,
     mkWorld (storage_files w) (storage_quotas w)
       (storage_access_logs w ++ logged w file_id user_id "download")
       (log_write_fails w) d1 (driver_calls w ++ [CallDownload (file_key f)])).
Proof.
  intros Hf Hw Hdel Hexp Hdown.
  unfold download_file. unfold bind at 1.
  rewrite (get_file_own_workspace _ _ _ _ Hf Hw), Hdel, Hexp.
  unfold bind at 1. unfold call_driver. rewrite Hdown.
  rewrite log_access_then_read by (simpl; rewrite Hf; eauto).
  unfold unless_log_refused, logged, set_logs. simpl.
  rewrite andb_true_r. done.
Qed.

(** C5: with a storage limit of 10,000,000 bytes of which 9,500,000 are
    used and enforcement on, an upload of 600,000 bytes ends with the 413
    exception before the driver is called and with the world as it was;
    an upload of 400,000 bytes that the file-size and file-count limits do
    not stop, that the driver stores and whose log row the table takes,
    brings the used bytes to exactly 9,900,000 and the used files up by
    one. *)
Theorem upload_quota_boundary (self_ws : Z) w (q : StorageQuota)
    (new_id : Z) (now : datetime) (data : list Byte.byte)
    (filename ctype : string) (user_id : Z) (folder : option string)
    (public : bool) (expires : option datetime) :
  storage_quotas w !! self_ws = Some q →
  max_storage_bytes q = Some 10000000 →
  used_storage_bytes q = 9500000 →
  enforce_quota q = true →
  let upload :=
    upload_file self_ws new_id now data filename ctype user_id folder public
      expires w in
  (Z.of_nat (length data) = 600000 →
     ∃ reason,
       upload = (inl (HTTPException HTTP_413_REQUEST_ENTITY_TOO_LARGE reason), w)
       ∧ error_kind (HTTPException HTTP_413_REQUEST_ENTITY_TOO_LARGE reason)
         = Some QuotaExceeded) ∧
  (Z.of_nat (length data) = 400000 →
     limit_fails null_or_zero q 400000 FileSizeLimit = false →
     limit_fails null_or_zero q 400000 FileCountLimit = false →
     log_write_fails w = false →
     ∀ ur d', Drivers.upload_file data filename ctype (driver w) = (inr ur, d') →
     ∃ response q',
       upload.1 = inr response ∧
       driver_calls upload.2 = driver_calls w ++ [CallUpload filename] ∧
       storage_quotas upload.2 !! self_ws = Some q' ∧
       used_storage_bytes q' = 9900000 ∧
       used_files q' = used_files q + 1).
Proof.
  intros Hq Hmax Hused Henf upload. split.
  - subst upload. unfold upload_file, bind, get_or_create_quota. rewrite Hq.
    unfold can_upload_file. rewrite Henf, Hmax, Hused. simpl negb. cbn iota.
    intros ->.
    destruct (truthy (max_file_size_bytes q) && _); simpl; [by eexists|].
    by eexists.
  - intros Hlen Hsize Hcount Hlog ur d' Hup.
    assert (fst (can_upload_file (quota_of self_ws w) (Z.of_nat (length data)))
            = true) as Hok.
    { unfold quota_of. rewrite Hq, Hlen. simpl.
      unfold limit_fails, null_or_zero in Hsize, Hcount.
      simpl in Hsize, Hcount. rewrite negb_involutive in Hsize, Hcount.
      unfold can_upload_file. rewrite Henf, Hmax, Hused, Hsize, Hcount. done. }
    subst upload.
    rewrite (upload_file_eq self_ws w new_id now data filename ctype
               user_id folder public expires ur d' Hok Hup).
    unfold unless_log_refused. rewrite Hlog. simpl.
    eexists _, _. split; [done|]. split; [done|].
    rewrite lookup_insert_eq. split; [done|].
    unfold quota_of. rewrite Hq. simpl. lia.
Qed.

(** C9: a failing access-log write is propagated.  With a log table
    that refuses the insert, a soft delete, a download and an upload that
    have done all their work (the record is soft-deleted, the object is
    served, the record and the counters are written) end with
    [PendingRollbackError], raised by the column read that follows
    [_log_access]; with a log table that takes the insert the same calls
    return their value. *)
Theorem log_access_failure_propagates (self_ws : Z) w (now : datetime)
    (file_id user_id : Z) (f : StorageFile) :
  storage_files w !! file_id = Some f →
  workspace_id f = self_ws →
  log_write_fails w = true →
  let w_ok := set_log_write_fails false w in
  (let out := delete_file self_ws now file_id user_id false w in
   out.1 = inl PendingRollbackError ∧
   (delete_file self_ws now file_id user_id false w_ok).1 = inr true ∧
   storage_files out.2
     = storage_files (delete_file self_ws now file_id user_id false w_ok).2) ∧
  (is_deleted f = false → is_expired now f = false →
   ∀ r d1, Drivers.download_file (file_key f) (driver w) = (inr r, d1) →
     (download_file self_ws now file_id user_id w).1 = inl PendingRollbackError ∧
     (download_file self_ws now file_id user_id w_ok).1 = inr r) ∧
  (∀ new_id data filename ctype folder public expires ur d1,
     fst (can_upload_file (quota_of self_ws w) (Z.of_nat (length data))) = true →
     Drivers.upload_file data filename ctype (driver w) = (inr ur, d1) →
     let up := upload_file self_ws new_id now data filename ctype user_id
                 folder public expires in
     (up w).1 = inl PendingRollbackError ∧
     (∃ response, (up w_ok).1 = inr response) ∧
     storage_files (up w).2 = storage_files (up w_ok).2 ∧
     storage_quotas (up w).2 = storage_quotas (up w_ok).2).
Proof.
  intros Hf Hw Hlog w_ok.
  assert (log_write_fails w_ok = false) as Hlog' by done.
  split; [|split].
  - simpl.
    rewrite (delete_file_soft_eq self_ws w now file_id user_id f Hf Hw).
    rewrite (delete_file_soft_eq self_ws w_ok now file_id user_id f Hf Hw).
    unfold unless_log_refused. rewrite Hlog, Hlog'. done.
  - intros Hdel Hexp r d1 Hdown.
    rewrite (download_file_eq self_ws w now file_id user_id f r d1
               Hf Hw Hdel Hexp Hdown).
    rewrite (download_file_eq self_ws w_ok now file_id user_id f r d1
               Hf Hw Hdel Hexp Hdown).
    unfold unless_log_refused. rewrite Hlog, Hlog'. done.
  - intros new_id data filename ctype folder public expires ur d1 Hok Hup up.
    subst up. simpl.
    rewrite (upload_file_eq self_ws w new_id now data filename ctype
               user_id folder public expires ur d1 Hok Hup).
    rewrite (upload_file_eq self_ws w_ok new_id now data filename ctype
               user_id folder public expires ur d1 Hok Hup).
    unfold unless_log_refused. rewrite Hlog, Hlog'. simpl.
    split; [done|]. split; [by eexists|done].
Qed.

(** C10, amended: a soft delete replaces the record by a copy that
    differs in [deleted_at], [status] and [updated_at] only, and leaves
    the quota table and the driver alone; a hard delete removes the
    record and takes the file's size and one file off the workspace's
    counters, also when the driver's delete reports failure. *)
Theorem delete_file_quota_effect (self_ws : Z) w (now : datetime)
    (file_id user_id : Z) (f : StorageFile) :
  storage_files w !! file_id = Some f →
  workspace_id f = self_ws →
  let soft := delete_file self_ws now file_id user_id false w in
  let hard := delete_file self_ws now file_id user_id true w in
  ((log_write_fails w = false → soft.1 = inr true) ∧
   (∃ f', storage_files soft.2 = <[file_id := f']> (storage_files w) ∧
          deleted_at f' = Some now ∧ status f' = DELETED ∧
          same_but_deletion_and_updated_at f f') ∧
   storage_quotas soft.2 = storage_quotas w ∧
   driver_calls soft.2 = driver_calls w) ∧
  (∀ (deleted : bool) d',
     Drivers.driver_delete_file (file_key f) (driver w) = (inr deleted, d') →
     let q := default default_quota (storage_quotas w !! self_ws) in
     hard.1 = inr true ∧
     storage_files hard.2 = delete file_id (storage_files w) ∧
     ∃ q', storage_quotas hard.2 !! self_ws = Some q' ∧
           used_storage_bytes q' = used_storage_bytes q - file_size f ∧
           used_files q' = used_files q - 1).
Proof.
  intros Hf Hw soft hard. split.
  - subst soft.
    rewrite (delete_file_soft_eq self_ws w now file_id user_id f Hf Hw).
    simpl. split; [|split; [|done]].
    + intros Hl. unfold unless_log_refused. by rewrite Hl.
    + exists (on_update now (soft_delete now f)). repeat split; done.
  - intros deleted d' Hdel. subst hard.
    rewrite (delete_file_hard_eq self_ws w now file_id user_id f deleted d'
               Hf Hw Hdel).
    simpl. split; [done|]. split; [done|]. eexists.
    rewrite lookup_insert_eq. split; [done|].
    unfold quota_of. simpl. lia.
Qed.

End service_facts.

(** C2, as stated: the request through workspace 20 for file 1 of
    workspace 10 ends with the exception an unknown file id gets, which
    is a not-found error and no cross-workspace error. *)
Lemma cross_workspace_request_is_not_found :
  let out := StorageService.delete_file 20 0 1 99 false sample_world in
  out = (inl (HTTPException 404 "File not found"), sample_world) ∧
  out = StorageService.delete_file 20 0 555 99 false sample_world ∧
  error_kind (HTTPException 404 "File not found") = Some NotFound ∧
  error_kind (HTTPException 404 "File not found")
    ≠ Some CrossWorkspaceAccessError.
Proof. vm_compute. done. Qed.

Lemma cross_workspace_request_witness :
  StorageService.download_file 20 0 1 99 sample_world
    = (inl StorageService.not_found, sample_world).
Proof.
  apply (cross_workspace_request 20 sample_world 0 1 99
           (mkStorageFile "workspace-a/report.txt" "report.txt" "text/plain"
              100 ACTIVE S3 10 7 None false None None 0 0)).
  - reflexivity.
  - simpl. lia.
Defined.

Lemma upload_quota_boundary_witness :
  let upload :=
    StorageService.upload_file 10 1 0 (zeros 400000) "a.bin" "text/plain" 7
      None false None boundary_world in
  ∃ response q',
    upload.1 = inr response ∧
    StorageService.driver_calls upload.2 = [StorageService.CallUpload "a.bin"] ∧
    StorageService.storage_quotas upload.2 !! 10 = Some q' ∧
    used_storage_bytes q' = 9900000 ∧
    used_files q' = 1.
Proof.
  refine (proj2 (upload_quota_boundary 10 boundary_world boundary_quota 1 0
                   (zeros 400000) "a.bin" "text/plain" 7 None false None
                   eq_refl eq_refl eq_refl eq_refl) _ eq_refl eq_refl eq_refl
            _ _ eq_refl).
  unfold zeros. rewrite length_replicate. lia.
Defined.

Lemma log_access_failure_propagates_witness :
  (StorageService.delete_file 10 5 1 99 false failing_log_world).1
    = inl PendingRollbackError ∧
  (StorageService.delete_file 10 5 1 99 false sample_world).1 = inr true.
Proof.
  destruct (proj1 (log_access_failure_propagates 10 failing_log_world 5 1 99
                     sample_file eq_refl eq_refl eq_refl))
    as (H1 & H2 & _).
  split; [exact H1|exact H2].
Defined.

(** C10, as stated: the soft delete of the file of [sample_world] at
    time 5 also rewrites [updated_at], from 0 to 5, so the record after
    differs from the record before in more than [deleted_at] and
    [status]. *)
Lemma soft_delete_rewrites_updated_at :
  let soft := StorageService.delete_file 10 5 1 99 false sample_world in
  ∃ f', StorageService.storage_files soft.2 !! 1 = Some f' ∧
        updated_at sample_file = 0 ∧ updated_at f' = 5 ∧
        ¬ same_but_deletion sample_file f'.
Proof.
  eexists. split; [vm_compute; reflexivity|].
  split; [reflexivity|]. split; [reflexivity|].
  intros (_ & _ & _ & _ & _ & _ & _ & _ & _ & _ & _ & Hu). discriminate Hu.
Qed.

Lemma delete_file_quota_effect_witness :
  let hard := StorageService.delete_file 10 0 1 99 true sample_world in
  hard.1 = inr true ∧
  StorageService.storage_files hard.2 = ∅ ∧
  ∃ q', StorageService.storage_quotas hard.2 !! 10 = Some q' ∧
        used_storage_bytes q' = 400 ∧ used_files q' = 4.
Proof.
  refine (proj2 (delete_file_quota_effect 10 sample_world 0 1 99
                   (mkStorageFile "workspace-a/report.txt" "report.txt"
                      "text/plain" 100 ACTIVE S3 10 7 None false None None 0 0)
                   eq_refl eq_refl) false _ eq_refl).
Defined.

(** ** The cleanup service: its statistics *)

Section stats_facts.
Import Cleanup.

Lemma length_filter_split {A} (P : A → Prop) `{!∀ x, Decision (P x)}
    (l : list A) :
  (length (filter P l) + length (filter (λ x, ¬ P x) l))%nat = length l.
Proof.
  induction l as [|a l IH]; [done|].
  rewrite !filter_cons. destruct (decide (P a)).
  - rewrite decide_False by tauto. simpl. lia.
  - rewrite decide_True by done. simpl. lia.
Qed.

Lemma sum_sizes_filter_le (P : Z * StorageFile → Prop)
    `{!∀ x, Decision (P x)} (l : list (Z * StorageFile)) :
  (∀ x, x ∈ l → 0 ≤ file_size x.2) →
  0 ≤ sum_sizes (filter P l) ≤ sum_sizes l.
Proof.
  induction l as [|a l IH]; intros Hpos; [simpl; lia|].
  rewrite filter_cons.
  pose proof (Hpos a (list_elem_of_here _ _)) as Ha.
  destruct IH as [H1 H2].
  { intros x Hx. by apply Hpos, list_elem_of_further. }
  destruct (decide (P a)); simpl; fold (sum_sizes l);
    try fold (sum_sizes (filter P l)); lia.
Qed.

(** X8: in the statistics the cleanup service takes, every record is counted
    either as active or as deleted, and with no negative file size the
    active bytes are between zero and the total. *)
Theorem get_storage_stats_partition (s : Store) :
  let st := get_storage_stats s in
  total_files st = active_files st + deleted_files st ∧
  total_files st = Z.of_nat (size (storage_files s)) ∧
  ((∀ i r, storage_files s !! i = Some r → 0 ≤ file_size r) →
   0 ≤ active_size_bytes st ≤ total_size_bytes st).
Proof.
  unfold get_storage_stats. simpl. split; [|split].
  - pose proof (length_filter_split (λ x : Z * StorageFile, deleted_at x.2 = None)
                  (map_to_list (storage_files s))). lia.
  - by rewrite length_map_to_list.
  - intros Hpos. apply sum_sizes_filter_le.
    intros [i r] Hx%elem_of_map_to_list. by apply (Hpos i r).
Qed.

End stats_facts.

(** ** The quota: further properties *)

(** X10: admission is monotone in the size: when an upload is allowed,
    every smaller upload is allowed too. *)
Theorem can_upload_file_monotone (q : StorageQuota) (n m : Z) :
  m ≤ n →
  fst (can_upload_file q n) = true →
  fst (can_upload_file q m) = true.
Proof.
  intros Hle. unfold can_upload_file.
  destruct (enforce_quota q); simpl; [|done].
  destruct (truthy (max_file_size_bytes q)) eqn:E1; simpl.
  - destruct (n >? _) eqn:G1; [done|].
    replace (m >? default 0 (max_file_size_bytes q)) with false by lia.
    destruct (truthy (max_storage_bytes q)) eqn:E2; simpl.
    + destruct (used_storage_bytes q + n >? _) eqn:G2; [done|].
      replace (used_storage_bytes q + m >? default 0 (max_storage_bytes q))
        with false by lia.
      done.
    + done.
  - destruct (truthy (max_storage_bytes q)) eqn:E2; simpl.
    + destruct (used_storage_bytes q + n >? _) eqn:G2; [done|].
      replace (used_storage_bytes q + m >? default 0 (max_storage_bytes q))
        with false by lia.
      done.
    + done.
Qed.

(** X11: under enforcement an admitted upload never overshoots a limit
    that is set (not null, not zero): the file is within the file-size
    limit, and after the counters are updated the used bytes and the
    used files are within theirs. *)
Theorem admitted_upload_within_limits (q : StorageQuota) (size : Z) :
  enforce_quota q = true →
  fst (can_upload_file q size) = true →
  let q' := add_usage size 1 q in
  (∀ m, max_file_size_bytes q = Some m → m ≠ 0 → size ≤ m) ∧
  (∀ m, max_storage_bytes q = Some m → m ≠ 0 → used_storage_bytes q' ≤ m) ∧
  (∀ m, max_files q = Some m → m ≠ 0 → used_files q' ≤ m).
Proof.
  intros He. unfold can_upload_file. rewrite He. simpl.
  destruct (truthy (max_file_size_bytes q) && _) eqn:E1; [done|].
  destruct (truthy (max_storage_bytes q) && _) eqn:E2; [done|].
  destruct (truthy (max_files q) && _) eqn:E3; [done|].
  intros _. apply andb_false_iff in E1, E2, E3.
  split; [|split]; intros m Hm Hnz.
  - rewrite Hm in E1. simpl in E1. destruct E1 as [E|E]; lia.
  - rewrite Hm in E2. simpl in E2 |- *. destruct E2 as [E|E]; lia.
  - rewrite Hm in E3. simpl in E3 |- *. destruct E3 as [E|E]; lia.
Qed.

(** ** The storage service: how its operations compose *)

Section service_composition.
Import Drivers StorageService.
Context {D : Type} `{!BaseStorageDriver D}.
Implicit Types (w : World D).

(** X12: once a file is soft-deleted through the service, downloading it
    or asking a signed URL for it ends with the 404 "has been deleted"
    exception without calling the driver; once it is hard-deleted, they
    end with the 404 of an unknown file. *)
Theorem access_after_delete (self_ws : Z) w (now now' : datetime)
    (file_id user_id : Z) (f : StorageFile) :
  storage_files w !! file_id = Some f →
  workspace_id f = self_ws →
  let w1 := (delete_file self_ws now file_id user_id false w).2 in
  let w2 := (delete_file self_ws now file_id user_id true w).2 in
  (download_file self_ws now' file_id user_id w1 = (inl deleted_error, w1) ∧
   ∀ expiration operation,
     generate_signed_url self_ws now' file_id user_id expiration operation w1
     = (inl deleted_error, w1)) ∧
  (∀ deleted d',
     driver_delete_file (file_key f) (driver w) = (inr deleted, d') →
     download_file self_ws now' file_id user_id w2 = (inl not_found, w2) ∧
     ∀ expiration operation,
       generate_signed_url self_ws now' file_id user_id expiration operation w2
       = (inl not_found, w2)).
Proof.
  intros Hf Hw w1 w2. split.
  - assert (_get_file_or_404 self_ws file_id w1
            = (inr (on_update now (soft_delete now f)), w1)) as Hget.
    { apply get_file_own_workspace; [|done]. subst w1.
      rewrite (delete_file_soft_eq self_ws w now file_id user_id f Hf Hw).
      apply lookup_insert_eq. }
    unfold download_file, generate_signed_url, bind. rewrite Hget. done.
  - intros deleted d' Hdel.
    assert (_get_file_or_404 self_ws file_id w2 = (inl not_found, w2)) as Hget.
    { apply get_file_other_workspace. intros f'. subst w2.
      rewrite (delete_file_hard_eq self_ws w now file_id user_id f deleted d'
                 Hf Hw Hdel).
      simpl. by rewrite lookup_delete_eq. }
    unfold download_file, generate_signed_url, bind. rewrite Hget. done.
Qed.

(** X13: an upload followed by the hard delete of the new file brings the
    workspace's counters back to what they were and leaves no record of
    the file, provided the driver stores and removes the object without
    raising. *)
Theorem upload_then_hard_delete (self_ws : Z) w (new_id : Z)
    (now now' : datetime) (data : list Byte.byte) (filename ctype : string)
    (user_id : Z) (folder : option string) (public : bool)
    (expires : option datetime) (ur : UploadResult) (d1 d2 : D)
    (deleted : bool) :
  fst (can_upload_file (quota_of self_ws w) (Z.of_nat (length data))) = true →
  Drivers.upload_file data filename ctype (driver w) = (inr ur, d1) →
  driver_delete_file (ur_file_key ur) d1 = (inr deleted, d2) →
  let w1 := (upload_file self_ws new_id now data filename ctype user_id folder
               public expires w).2 in
  let out := delete_file self_ws now' new_id user_id true w1 in
  out.1 = inr true ∧
  storage_files out.2 = delete new_id (storage_files w) ∧
  used_storage_bytes (quota_of self_ws out.2)
    = used_storage_bytes (quota_of self_ws w) ∧
  used_files (quota_of self_ws out.2) = used_files (quota_of self_ws w) ∧
  driver out.2 = d2 ∧
  driver_calls out.2
    = driver_calls w ++ [CallUpload filename; CallDelete (ur_file_key ur)].
Proof.
  intros Hok Hup Hdel w1 out. subst out w1.
  rewrite (upload_file_eq self_ws w new_id now data filename ctype user_id
             folder public expires ur d1 Hok Hup). simpl.
  set (rec := uploaded_record self_ws now (Z.of_nat (length data)) filename
                ctype user_id folder public expires ur (is_minio d1)).
  match goal with
  | |- context [delete_file self_ws now' new_id user_id true ?w1] =>
      rewrite (delete_file_hard_eq self_ws w1 now' new_id user_id rec deleted d2)
  end; [|apply lookup_insert_eq|done|done].
  unfold quota_of. simpl. rewrite !lookup_insert_eq. simpl.
  split; [done|]. split; [by rewrite delete_insert_eq|].
  split; [lia|]. split; [lia|]. split; [done|].
  by rewrite <- app_assoc.
Qed.

(** X14: a download of a file that has expired ends with the 410
    exception and no driver call; asking a signed URL for the same file
    does call the driver: expiry is not checked there. *)
Theorem expired_file_access (self_ws : Z) w (now : datetime)
    (file_id user_id : Z) (f : StorageFile) (e : datetime) :
  storage_files w !! file_id = Some f →
  workspace_id f = self_ws →
  is_deleted f = false →
  expires_at f = Some e → e < now →
  download_file self_ws now file_id user_id w
    = (inl (HTTPException HTTP_410_GONE "File has expired"), w) ∧
  ∀ expiration operation,
    driver_calls (generate_signed_url self_ws now file_id user_id expiration
                    operation w).2
    = driver_calls w ++ [CallSignedUrl (file_key f) operation].
Proof.
  intros Hf Hw Hdel He Hlt.
  unfold download_file, generate_signed_url, bind.
  rewrite (get_file_own_workspace _ _ _ _ Hf Hw), Hdel.
  split.
  - unfold is_expired. rewrite He.
    replace (now >? e) with true by lia. done.
  - intros expiration operation. unfold call_driver.
    destruct (Drivers.generate_signed_url _ _ _ _ _) as [[err|url] d1]; simpl;
      [done|].
    unfold _log_access. simpl. by destruct (log_insert_refused _ _).
Qed.

(** X15: when the driver raises during an admitted upload, a hard
    delete or a download, the exception reaches the caller, no record is
    added or removed, the counters are not touched and nothing is
    logged.  The quota table is as before, except that an upload for a
    workspace without a quota row has committed the default row before
    it calls the driver. *)
Theorem driver_exception_leaves_tables (self_ws : Z) w (err : exn) (d1 : D) :
  (∀ new_id now data filename ctype user_id folder public expires,
     fst (can_upload_file (quota_of self_ws w) (Z.of_nat (length data))) = true →
     Drivers.upload_file data filename ctype (driver w) = (inl err, d1) →
     let out := upload_file self_ws new_id now data filename ctype user_id
                  folder public expires w in
     out.1 = inl err ∧ storage_files out.2 = storage_files w ∧
     storage_quotas out.2
       = <[self_ws := quota_of self_ws w]> (storage_quotas w) ∧
     (is_Some (storage_quotas w !! self_ws) →
      storage_quotas out.2 = storage_quotas w) ∧
     quota_of self_ws out.2 = quota_of self_ws w ∧
     storage_access_logs out.2 = storage_access_logs w) ∧
  (∀ now file_id user_id f,
     storage_files w !! file_id = Some f → workspace_id f = self_ws →
     driver_delete_file (file_key f) (driver w) = (inl err, d1) →
     let out := delete_file self_ws now file_id user_id true w in
     out.1 = inl err ∧ storage_files out.2 = storage_files w ∧
     storage_quotas out.2 = storage_quotas w ∧
     storage_access_logs out.2 = storage_access_logs w) ∧
  (∀ now file_id user_id f,
     storage_files w !! file_id = Some f → workspace_id f = self_ws →
     is_deleted f = false → is_expired now f = false →
     Drivers.download_file (file_key f) (driver w) = (inl err, d1) →
     let out := download_file self_ws now file_id user_id w in
     out.1 = inl err ∧ storage_files out.2 = storage_files w ∧
     storage_quotas out.2 = storage_quotas w ∧
     storage_access_logs out.2 = storage_access_logs w).
Proof.
  split; [|split].
  - intros new_id now data filename ctype user_id folder public expires
      Hok Hup. simpl. unfold quota_of in *.
    unfold upload_file, bind, get_or_create_quota.
    destruct (storage_quotas w !! self_ws) as [q0|] eqn:Hq0; simpl in Hok |- *;
      (destruct (can_upload_file _ _) as [ok reason]; simpl in Hok; subst ok;
       simpl; unfold call_driver; simpl; rewrite Hup; simpl).
    + rewrite Hq0. simpl. rewrite (insert_id _ _ _ Hq0). done.
    + rewrite lookup_insert_eq. simpl.
      repeat split; done.
  - intros now file_id user_id f Hf Hw Hdel. simpl.
    unfold delete_file, bind.
    rewrite (get_file_own_workspace _ _ _ _ Hf Hw).
    unfold call_driver. by rewrite Hdel.
  - intros now file_id user_id f Hf Hw Hdel Hexp Hdown. simpl.
    unfold download_file, bind.
    rewrite (get_file_own_workspace _ _ _ _ Hf Hw), Hdel, Hexp.
    unfold call_driver. by rewrite Hdown.
Qed.

(** X16: what the access log holds after each operation, with a log
    table that takes inserts.  An upload, a download, a soft delete and a
    signed-url generation that return a value append exactly one entry,
    naming the file, the user and the action, and those that raise
    append none.  A hard delete never appends an entry: when it returns,
    the log holds no entry of the file any more, the file's row being
    gone when the entry is written; when it raises, the log is as
    before. *)
Theorem access_log_trail (self_ws : Z) w (now : datetime)
    (file_id user_id new_id : Z) :
  log_write_fails w = false →
  (∀ data filename ctype folder public expires,
     log_trail w (upload_file self_ws new_id now data filename ctype user_id
                    folder public expires w) new_id user_id "upload") ∧
  log_trail w (download_file self_ws now file_id user_id w)
    file_id user_id "download" ∧
  log_trail w (delete_file self_ws now file_id user_id false w)
    file_id user_id "delete" ∧
  (∀ expiration operation,
     log_trail w (generate_signed_url self_ws now file_id user_id expiration
                    operation w)
       file_id user_id ("signed_url_" +:+ lower operation)) ∧
  (let out := delete_file self_ws now file_id user_id true w in
   storage_access_logs out.2
   = match out.1 with
     | inr _ => filter (λ l, log_file_id l ≠ file_id) (storage_access_logs w)
     | inl _ => storage_access_logs w
     end).
Proof.
  intros Hlog. unfold log_trail.
  split; [|split; [|split; [|split]]]; intros.
  - unfold upload_file, bind, get_or_create_quota.
    destruct (storage_quotas w !! self_ws); simpl;
      destruct (can_upload_file _ _) as [[] reason]; simpl;
      try (by rewrite app_nil_r);
      unfold call_driver; simpl;
      destruct (Drivers.upload_file _ _ _ _) as [[err|ur] d1]; simpl;
      try (by rewrite app_nil_r);
      unfold _log_access, log_insert_refused; simpl;
      rewrite Hlog, lookup_insert_eq; done.
  - unfold download_file, bind, _get_file_or_404.
    destruct (storage_files w !! file_id) as [f|] eqn:Hf; simpl;
      [|by rewrite app_nil_r].
    destruct (bool_decide _); simpl; [|by rewrite app_nil_r].
    destruct (is_deleted f); simpl; [by rewrite app_nil_r|].
    destruct (is_expired now f); simpl; [by rewrite app_nil_r|].
    unfold call_driver.
    destruct (Drivers.download_file _ _) as [[err|r] d1]; simpl;
      [by rewrite app_nil_r|].
    unfold _log_access, log_insert_refused. simpl. by rewrite Hlog, Hf.
  - unfold delete_file, bind, _get_file_or_404.
    destruct (storage_files w !! file_id) as [f|] eqn:Hf; simpl;
      [|by rewrite app_nil_r].
    destruct (bool_decide _); simpl; [|by rewrite app_nil_r].
    unfold _log_access, log_insert_refused. simpl.
    by rewrite Hlog, lookup_insert_eq.
  - unfold generate_signed_url, bind, _get_file_or_404.
    destruct (storage_files w !! file_id) as [f|] eqn:Hf; simpl;
      [|by rewrite app_nil_r].
    destruct (bool_decide _); simpl; [|by rewrite app_nil_r].
    destruct (is_deleted f); simpl; [by rewrite app_nil_r|].
    unfold call_driver.
    destruct (Drivers.generate_signed_url _ _ _ _ _) as [[err|r] d1]; simpl;
      [by rewrite app_nil_r|].
    unfold _log_access, log_insert_refused. simpl. by rewrite Hlog, Hf.
  - simpl. unfold delete_file, bind, _get_file_or_404.
    destruct (storage_files w !! file_id) as [f|] eqn:Hf; simpl; [|done].
    destruct (bool_decide _); simpl; [|done].
    unfold call_driver.
    destruct (driver_delete_file _ _) as [[err|r] d1]; simpl; [done|].
    unfold get_or_create_quota. simpl.
    destruct (storage_quotas w !! self_ws); simpl;
      unfold _log_access, log_insert_refused; simpl;
      by rewrite lookup_delete_eq, orb_true_r.
Qed.

(** X17: a soft-deleted file can still be deleted.  A soft delete
    leaves the quota table alone; a second soft delete moves the deletion
    time to the later call and returns true when the log table takes
    its entry; a hard delete of the soft-deleted file returns true,
    removes its record and only then takes its size and one file off the
    counters. *)
Theorem delete_after_soft_delete (self_ws : Z) w (now now' : datetime)
    (file_id user_id : Z) (f : StorageFile) :
  storage_files w !! file_id = Some f →
  workspace_id f = self_ws →
  let w1 := (delete_file self_ws now file_id user_id false w).2 in
  storage_quotas w1 = storage_quotas w ∧
  (let out := delete_file self_ws now' file_id user_id false w1 in
   (log_write_fails w = false → out.1 = inr true) ∧
   (∃ f', storage_files out.2 = <[file_id := f']> (storage_files w) ∧
          deleted_at f' = Some now' ∧ status f' = DELETED ∧
          same_but_deletion_and_updated_at f f') ∧
   storage_quotas out.2 = storage_quotas w) ∧
  (∀ deleted d1,
     driver_delete_file (file_key f) (driver w) = (inr deleted, d1) →
     let out := delete_file self_ws now' file_id user_id true w1 in
     out.1 = inr true ∧
     storage_files out.2 = delete file_id (storage_files w) ∧
     storage_quotas out.2
     = <[self_ws := add_usage (- file_size f) (-1) (quota_of self_ws w)]>
         (storage_quotas w)).
Proof.
  intros Hf Hw w1. subst w1.
  rewrite (delete_file_soft_eq self_ws w now file_id user_id f Hf Hw). simpl.
  set (f1 := on_update now (soft_delete now f)).
  split; [done|]. split.
  - match goal with
    | |- context [delete_file self_ws now' file_id user_id false ?w1] =>
        rewrite (delete_file_soft_eq self_ws w1 now' file_id user_id f1)
    end; [|apply lookup_insert_eq|done].
    simpl. split; [|split; [|done]].
    + intros Hl. unfold unless_log_refused. simpl. by rewrite Hl.
    + exists (on_update now' (soft_delete now' f1)).
      rewrite insert_insert_eq. repeat split; done.
  - intros deleted d1 Hdel.
    match goal with
    | |- context [delete_file self_ws now' file_id user_id true ?w1] =>
        rewrite (delete_file_hard_eq self_ws w1 now' file_id user_id f1
                   deleted d1)
    end; [|apply lookup_insert_eq|done|done].
    simpl. split; [done|]. split; [by rewrite delete_insert_eq|done].
Qed.

End service_composition.

(** ** The drivers: keys, and the other operations of the MinIO driver *)

Section key_facts.

Lemma rsplit_dot_join (s name ext : string) :
  rsplit_dot s = Some (name, ext) → name +:+ "." +:+ ext = s.
Proof.
  revert name ext. induction s as [|c s IH]; intros name ext; [done|].
  simpl. destruct (rsplit_dot s) as [[n e]|].
  - intros [= <- <-]. by rewrite <- (IH n e eq_refl).
  - destruct (Ascii.eqb c dot) eqn:E; [|done].
    apply Ascii.eqb_eq in E. subst c. by intros [= <- <-].
Qed.

Lemma append_assoc (a b c : string) : (a +:+ b) +:+ c = a +:+ (b +:+ c).
Proof. induction a as [|x a IH]; [done|]. change (String x ((a +:+ b) +:+ c) = String x (a +:+ b +:+ c)). by rewrite IH. Qed.

Lemma append_cancel_l (p x y : string) : p +:+ x = p +:+ y → x = y.
Proof. induction p as [|c p IH]; simpl; [done|]. intros [= H]. by apply IH. Qed.

Lemma append_inj_length (a b c d : string) :
  String.length a = String.length c → a +:+ b = c +:+ d → a = c ∧ b = d.
Proof.
  revert c. induction a as [|x a IH]; intros [|y c]; simpl; try done.
  intros [= Hl] [= -> H]. destruct (IH c Hl H) as [-> ->]. done.
Qed.

Lemma generate_file_key_eq (prefix unique_id filename : string) :
  _generate_file_key prefix unique_id filename
    = prefix +:+ unique_id +:+ "_" +:+ filename.
Proof.
  unfold _generate_file_key.
  destruct (rsplit_dot filename) as [[name ext]|] eqn:E; [|done].
  by rewrite (rsplit_dot_join _ _ _ E).
Qed.

(** X18: the generated key is always the prefix, the unique id, an
    underscore and the file name unchanged, whether or not the name has
    an extension; so two keys under one prefix with ids of the same
    length are equal only for the same id and the same file name. *)
Theorem generate_file_key_shape (prefix unique_id filename : string) :
  _generate_file_key prefix unique_id filename
    = prefix +:+ unique_id +:+ "_" +:+ filename ∧
  ∀ unique_id' filename',
    String.length unique_id = String.length unique_id' →
    _generate_file_key prefix unique_id filename
      = _generate_file_key prefix unique_id' filename' →
    unique_id = unique_id' ∧ filename = filename'.
Proof.
  split; [apply generate_file_key_eq|].
  intros u' f' Hlen. rewrite !generate_file_key_eq. intros H%append_cancel_l.
  apply append_inj_length in H as [-> H]; [|done].
  by apply (append_cancel_l "_") in H.
Qed.

End key_facts.

Section minio_facts.
Import Drivers.
Variable workspace : string.
Implicit Types (b : Backend) (o : StoredObject).

Lemma object_at_set_bucket b objs key :
  object_at workspace key (MinIO.set_bucket (minio_bucket_name workspace) objs b)
    = objs !! key.
Proof. unfold object_at, MinIO.set_bucket. simpl. by rewrite lookup_insert_eq. Qed.

Lemma object_at_Some b key o :
  object_at workspace key b = Some o →
  ∃ objs, buckets b !! minio_bucket_name workspace = Some objs ∧ objs !! key = Some o.
Proof.
  unfold object_at. destruct (buckets b !! _) as [objs|]; [|done].
  simpl. eauto.
Qed.

(** X19: [move_file] never raises.  It returns false and changes
    nothing when the source is missing or the store cannot be reached;
    when the source is there and the destination is another key, it
    returns true, the destination holds the source's object, the source
    is gone and every other key is as before. *)
Theorem move_file_effect b source_key destination_key :
  (object_at workspace source_key b = None →
     MinIO.move_file workspace source_key destination_key b = (false, b)) ∧
  (reachable b = false →
     MinIO.move_file workspace source_key destination_key b = (false, b)) ∧
  (∀ o, reachable b = true →
     object_at workspace source_key b = Some o →
     source_key ≠ destination_key →
     ∃ b', MinIO.move_file workspace source_key destination_key b = (true, b') ∧
       object_at workspace source_key b' = None ∧
       object_at workspace destination_key b' = Some o ∧
       ∀ k, k ≠ source_key → k ≠ destination_key →
         object_at workspace k b' = object_at workspace k b).
Proof.
  unfold MinIO.move_file, MinIO.copy_file, MinIO.copy_object, MinIO.with_bucket,
    MinIO.bucket_name.
  split; [|split].
  - unfold object_at. intros Hn. destruct (reachable b); simpl; [|done].
    destruct (buckets b !! _) as [objs|]; [|done]. simpl in Hn. by rewrite Hn.
  - by intros ->.
  - intros o Hr (objs & Hb & Ho)%object_at_Some Hne. rewrite Hr, Hb, Ho. simpl.
    rewrite bool_decide_eq_false_2 by done.
    unfold MinIO.delete_file, MinIO_delete_file, delete_file, remove_object.
    simpl. rewrite Hr. simpl. rewrite lookup_insert_eq.
    eexists. split; [done|].
    unfold object_at. simpl. rewrite !lookup_insert_eq. simpl.
    rewrite lookup_delete_eq.
    rewrite lookup_delete_ne, lookup_insert_eq by done.
    split; [done|]. split; [done|]. intros k Hk1 Hk2.
    rewrite lookup_delete_ne, lookup_insert_ne by done. by rewrite Hb.
Qed.

(** X20: on a store that can be reached, an upload creates the bucket
    if needed and stores the object under the prefix, the unique id, an
    underscore and the file name; a download of that key returns the
    bytes, their number and the content type (the default for an empty
    one); no other key of the bucket changes; after the delete of the
    key the object does not exist and a download raises the S3 error. *)
Theorem upload_download_round_trip b unique_id file_data filename content_type :
  reachable b = true →
  let key := "files/" +:+ unique_id +:+ "_" +:+ filename in
  let size := Z.of_nat (length file_data) in
  ∃ b',
    MinIO.upload_file workspace unique_id file_data filename content_type b
      = (inr (mkUploadResult key filename content_type size), b') ∧
    MinIO.download_file workspace key b'
      = (inr (file_data,
              mkFileMetadata key (MinIO.content_type_or_default content_type) size),
         b') ∧
    MinIO.file_exists workspace key b' = inr true ∧
    (∀ k, k ≠ key → object_at workspace k b' = object_at workspace k b) ∧
    ∃ b'', MinIO.delete_file workspace key b' = (inr true, b'') ∧
      MinIO.file_exists workspace key b'' = inr false ∧
      MinIO.download_file workspace key b'' = (inl (S3Error "NoSuchKey"), b'').
Proof.
  intros Hr key size.
  pose proof (generate_file_key_eq "files/" unique_id filename) as Hk.
  fold key in Hk.
  unfold MinIO.upload_file, MinIO._ensure_bucket_exists, MinIO.bucket_exists,
    MinIO.make_bucket, MinIO.put_object, MinIO.with_bucket, MinIO.bucket_name,
    MinIO.get_workspace_prefix.
  rewrite Hk, Hr. simpl.
  assert (∀ objs0 objs b1,
    reachable b1 = true →
    buckets b1 !! minio_bucket_name workspace = Some objs0 →
    objs = <[key := mkStoredObject file_data content_type]> objs0 →
    let b' := MinIO.set_bucket (minio_bucket_name workspace) objs b1 in
    MinIO.download_file workspace key b'
      = (inr (file_data,
              mkFileMetadata key (MinIO.content_type_or_default content_type) size),
         b') ∧
    MinIO.file_exists workspace key b' = inr true ∧
    (∀ k, k ≠ key → object_at workspace k b' = objs0 !! k) ∧
    ∃ b'', MinIO.delete_file workspace key b' = (inr true, b'') ∧
      MinIO.file_exists workspace key b'' = inr false ∧
      MinIO.download_file workspace key b'' = (inl (S3Error "NoSuchKey"), b''))
    as Hrest.
  { intros objs0 objs b1 Hr1 Hb1 -> b'.
    unfold MinIO.download_file, MinIO.file_exists, MinIO.get_object,
      MinIO.stat_object, MinIO.with_bucket, MinIO.bucket_name,
      MinIO.delete_file, MinIO_delete_file, delete_file, remove_object.
    subst b'. simpl. rewrite Hr1. simpl. rewrite !lookup_insert_eq.
    simpl. rewrite ?lookup_insert_eq. simpl.
    split; [done|]. split; [done|]. split.
    - intros k Hk'. rewrite object_at_set_bucket. by rewrite lookup_insert_ne.
    - eexists. split; [done|]. simpl. rewrite ?Hr1. simpl.
      rewrite ?lookup_insert_eq. simpl. rewrite ?lookup_delete_eq. done. }
  destruct (buckets b !! minio_bucket_name workspace) as [objs0|] eqn:Hb.
  - rewrite bool_decide_eq_true_2 by eauto. rewrite ?Hr, ?Hb. simpl.
    eexists. split; [done|].
    destruct (Hrest objs0 _ b Hr Hb eq_refl) as (H1 & H2 & H3 & H4).
    split; [exact H1|]. split; [exact H2|]. split; [|exact H4].
    intros k Hk'. rewrite (H3 k Hk'). unfold object_at. by rewrite Hb.
  - rewrite bool_decide_eq_false_2 by (intros [? ?]; done).
    rewrite ?Hb. simpl. rewrite ?Hr. simpl. rewrite lookup_insert_eq.
    eexists. split; [done|].
    set (b1 := MinIO.set_bucket (minio_bucket_name workspace) ∅ b).
    assert (buckets b1 !! minio_bucket_name workspace = Some ∅) as Hb1
      by (subst b1; simpl; by rewrite lookup_insert_eq).
    destruct (Hrest ∅ _ b1 Hr Hb1 eq_refl) as (H1 & H2 & H3 & H4).
    split; [exact H1|]. split; [exact H2|]. split; [|exact H4].
    intros k Hk'. rewrite (H3 k Hk'). unfold object_at. by rewrite Hb.
Qed.

Lemma minio_bucket_name_inj (w1 w2 : string) :
  minio_bucket_name w1 = minio_bucket_name w2 → w1 = w2.
Proof. apply append_cancel_l. Qed.

(** X21: the drivers of two workspaces do not touch each other's
    bucket: upload, delete, copy and move of one workspace leave the
    bucket of every other workspace as it was. *)
Theorem workspace_bucket_isolation (other : string) b
    unique_id file_data filename content_type key key' :
  other ≠ workspace →
  let untouched (b' : Backend) :=
    buckets b' !! minio_bucket_name other = buckets b !! minio_bucket_name other in
  untouched (MinIO.upload_file workspace unique_id file_data filename content_type b).2 ∧
  untouched (MinIO.delete_file workspace key b).2 ∧
  untouched (MinIO.copy_file workspace key key' b).2 ∧
  untouched (MinIO.move_file workspace key key' b).2.
Proof.
  intros Hne untouched.
  assert (minio_bucket_name workspace ≠ minio_bucket_name other) as Hn
    by (intros H%minio_bucket_name_inj; done).
  assert (∀ objs b1, untouched b1 →
    untouched (MinIO.set_bucket (minio_bucket_name workspace) objs b1)) as Hset.
  { intros objs b1 H1. unfold untouched, MinIO.set_bucket in *. simpl.
    by rewrite lookup_insert_ne. }
  assert (untouched b) as H0 by done.
  assert (∀ k b1, untouched b1 → untouched (MinIO.delete_file workspace k b1).2)
    as Hdel.
  { intros k b1 H1.
    unfold MinIO.delete_file, MinIO_delete_file, delete_file, remove_object.
    destruct (reachable b1); simpl; [|done].
    destruct (buckets b1 !! _) as [objs|]; simpl; [|done].
    by apply (Hset (delete k objs) b1). }
  assert (∀ k k' b1, untouched b1 → untouched (MinIO.copy_file workspace k k' b1).2)
    as Hcopy.
  { intros k k' b1 H1.
    unfold MinIO.copy_file, MinIO.copy_object, MinIO.with_bucket, MinIO.bucket_name.
    destruct (reachable b1); simpl; [|done].
    destruct (buckets b1 !! _) as [objs|]; simpl; [|done].
    destruct (objs !! k); simpl; [|done].
    case_bool_decide; simpl; [done|]. by apply Hset. }
  split; [|split; [|split]].
  - unfold MinIO.upload_file, MinIO._ensure_bucket_exists, MinIO.bucket_exists,
      MinIO.make_bucket, MinIO.put_object, MinIO.with_bucket, MinIO.bucket_name.
    destruct (reachable b) eqn:Hr; simpl; [|done].
    destruct (buckets b !! minio_bucket_name workspace) as [objs|] eqn:Hb.
    + rewrite bool_decide_eq_true_2 by eauto. rewrite ?Hr, ?Hb. simpl.
      by apply Hset.
    + rewrite bool_decide_eq_false_2 by (intros [? ?]; done).
      rewrite ?Hb. simpl. rewrite ?Hr. simpl. rewrite lookup_insert_eq. simpl.
      apply (Hset _ (MinIO.set_bucket _ ∅ b)). by apply Hset.
  - by apply Hdel.
  - by apply Hcopy.
  - unfold MinIO.move_file.
    pose proof (Hcopy key key' b H0) as Hc.
    destruct (MinIO.copy_file workspace key key' b) as [[e|[]] b1]; simpl in *;
      try done.
    pose proof (Hdel key b1 Hc) as Hd.
    destruct (MinIO.delete_file workspace key b1) as [[e|r] b2]; done.
Qed.

End minio_facts.

(** X22: with the prefixes of the S3 driver, the keys generated for
    two different workspaces (ids of the same length, as UUIDs are) are
    never equal. *)
Theorem s3_keys_of_workspaces_differ (w1 w2 u1 u2 f1 f2 : string) :
  String.length w1 = String.length w2 →
  w1 ≠ w2 →
  _generate_file_key (s3_workspace_prefix w1) u1 f1
    ≠ _generate_file_key (s3_workspace_prefix w2) u2 f2.
Proof.
  intros Hl Hne.
  rewrite !generate_file_key_eq.
  unfold s3_workspace_prefix. rewrite !append_assoc.
  intros H%append_cancel_l. apply append_inj_length in H as [H _]; done.
Qed.

(** ** The properties above at sample states *)

Lemma cleanup_orphaned_files_outcome_witness :
  (Cleanup.cleanup_orphaned_files "uploads" false (1000 + hours 25) orphan_store).1
    = inl Cleanup.no_class_attribute ∧
  (Cleanup.cleanup_orphaned_files "uploads" false (1000 + hours 25) empty_store).1
    = inr Cleanup.empty_stats.
Proof.
  split.
  - exact (proj2 (proj2 (cleanup_orphaned_files_outcome "uploads" false
                           (1000 + hours 25) orphan_store)) eq_refl).
  - exact (proj1 (proj2 (cleanup_orphaned_files_outcome "uploads" false
                           (1000 + hours 25) empty_store)) eq_refl).
Defined.

Lemma cleanup_orphaned_database_records_outcome_witness :
  (Cleanup.cleanup_orphaned_database_records id false gc_now mixed_store).1
    = inl Cleanup.no_instance_attribute.
Proof.
  apply (proj1 (proj2 (cleanup_orphaned_database_records_outcome id false
                         gc_now mixed_store))).
  exists 1, (mkStorageFile "files/a.bin" "a.bin" "text/plain" 10 ACTIVE MINIO
               1 2 None false None None 0 0).
  split; [reflexivity|]. split; [reflexivity|]. reflexivity.
Defined.

Lemma get_storage_stats_partition_witness :
  0 ≤ Cleanup.active_size_bytes (Cleanup.get_storage_stats mixed_store)
    ≤ Cleanup.total_size_bytes (Cleanup.get_storage_stats mixed_store).
Proof.
  apply (proj2 (proj2 (get_storage_stats_partition mixed_store))).
  apply map_Forall_lookup. apply (bool_decide_unpack _). vm_compute. exact I.
Defined.

Lemma can_upload_file_monotone_witness :
  fst (can_upload_file boundary_quota 100) = true.
Proof.
  apply (can_upload_file_monotone boundary_quota 400000 100).
  - lia.
  - reflexivity.
Defined.

Lemma admitted_upload_within_limits_witness :
  used_storage_bytes (add_usage 400000 1 boundary_quota) ≤ 10000000.
Proof.
  refine (proj1 (proj2 (admitted_upload_within_limits boundary_quota 400000
                          eq_refl eq_refl)) 10000000 eq_refl _).
  lia.
Defined.

Lemma access_after_delete_witness :
  let w1 := (StorageService.delete_file 10 0 1 99 false sample_world).2 in
  StorageService.download_file 10 5 1 99 w1 = (inl deleted_error, w1).
Proof.
  exact (proj1 (proj1 (access_after_delete 10 sample_world 0 5 1 99 sample_file
                         eq_refl eq_refl))).
Defined.

Lemma upload_then_hard_delete_witness :
  let w1 := (StorageService.upload_file 10 2 0 (zeros 3) "b.txt" "text/plain" 7
               None false None sample_world).2 in
  let out := StorageService.delete_file 10 5 2 7 true w1 in
  out.1 = inr true ∧
  StorageService.storage_files out.2
    = delete 2 (StorageService.storage_files sample_world) ∧
  used_storage_bytes (quota_of 10 out.2) = 500 ∧
  used_files (quota_of 10 out.2) = 5.
Proof.
  edestruct (upload_then_hard_delete 10 sample_world 2 0 5 (zeros 3) "b.txt"
               "text/plain" 7 None false None)
    as (H1 & H2 & H3 & H4 & _); [reflexivity|reflexivity|reflexivity|].
  split; [exact H1|]. split; [exact H2|]. split; [exact H3|exact H4].
Defined.

Lemma expired_file_access_witness :
  StorageService.download_file 10 200 1 99 expiring_world
    = (inl (HTTPException HTTP_410_GONE "File has expired"), expiring_world).
Proof.
  refine (proj1 (expired_file_access 10 expiring_world 200 1 99 expiring_file 100
                   eq_refl eq_refl eq_refl eq_refl _)).
  lia.
Defined.

Lemma driver_exception_leaves_tables_witness :
  let out := StorageService.download_file 10 0 1 99 sample_world in
  out.1 = inl (OtherError "File workspace-a/report.txt not found") ∧
  StorageService.storage_files out.2 = StorageService.storage_files sample_world ∧
  StorageService.storage_quotas out.2 = StorageService.storage_quotas sample_world ∧
  StorageService.storage_access_logs out.2
    = StorageService.storage_access_logs sample_world.
Proof.
  exact (proj2 (proj2 (driver_exception_leaves_tables 10 sample_world
                         (OtherError "File workspace-a/report.txt not found")
                         (Drivers.mkMemoryDriver "a" ∅)))
           0 1 99 sample_file eq_refl eq_refl eq_refl eq_refl eq_refl).
Defined.

Lemma access_log_trail_witness :
  log_trail logged_world
    (StorageService.download_file 10 0 1 99 logged_world) 1 99 "download" ∧
  StorageService.storage_access_logs
    (StorageService.delete_file 10 0 1 99 true logged_world).2 = [].
Proof.
  destruct (access_log_trail 10 logged_world 0 1 99 2 eq_refl)
    as (_ & H2 & _ & _ & H5).
  split; [exact H2|exact H5].
Defined.

Lemma delete_after_soft_delete_witness :
  let w1 := (StorageService.delete_file 10 0 1 99 false sample_world).2 in
  let out := StorageService.delete_file 10 5 1 99 false w1 in
  out.1 = inr true ∧
  StorageService.storage_quotas out.2 = StorageService.storage_quotas sample_world.
Proof.
  destruct (proj1 (proj2 (delete_after_soft_delete 10 sample_world 0 5 1 99
                            sample_file eq_refl eq_refl)))
    as (H1 & _ & H3).
  split; [exact (H1 eq_refl)|exact H3].
Defined.

Lemma move_file_effect_witness :
  ∃ b', MinIO.move_file "a" "files/k1" "files/k2" sample_backend = (true, b') ∧
    object_at "a" "files/k1" b' = None ∧
    object_at "a" "files/k2" b' = Some (Drivers.mkStoredObject [] "text/plain").
Proof.
  destruct (proj2 (proj2 (move_file_effect "a" sample_backend "files/k1" "files/k2"))
              (Drivers.mkStoredObject [] "text/plain") eq_refl eq_refl)
    as (b' & H1 & H2 & H3 & _); [done|].
  exists b'. split; [exact H1|]. split; [exact H2|exact H3].
Defined.

Lemma upload_download_round_trip_witness :
  ∃ b',
    MinIO.upload_file "b" "0f8a" (zeros 3) "n.txt" "text/plain" sample_backend
      = (inr (Drivers.mkUploadResult "files/0f8a_n.txt" "n.txt" "text/plain" 3), b') ∧
    MinIO.download_file "b" "files/0f8a_n.txt" b'
      = (inr (zeros 3, Drivers.mkFileMetadata "files/0f8a_n.txt" "text/plain" 3), b').
Proof.
  destruct (upload_download_round_trip "b" sample_backend "0f8a" (zeros 3) "n.txt"
              "text/plain" eq_refl) as (b' & H1 & H2 & _).
  exists b'. split; [exact H1|exact H2].
Defined.

Lemma workspace_bucket_isolation_witness :
  Drivers.buckets (MinIO.move_file "b" "files/k1" "files/k2" sample_backend).2
    !! Drivers.minio_bucket_name "a"
  = Drivers.buckets sample_backend !! Drivers.minio_bucket_name "a".
Proof.
  assert ("a" ≠ "b") as Hne by done.
  exact (proj2 (proj2 (proj2 (workspace_bucket_isolation "b" "a" sample_backend
                                "0f8a" [] "n.txt" "text/plain" "files/k1"
                                "files/k2" Hne)))).
Defined.

Lemma s3_keys_of_workspaces_differ_witness :
  _generate_file_key (s3_workspace_prefix "a") "0f8a" "n.txt"
    ≠ _generate_file_key (s3_workspace_prefix "b") "0f8a" "n.txt".
Proof.
  apply (s3_keys_of_workspaces_differ "a" "b" "0f8a" "0f8a" "n.txt" "n.txt").
  - reflexivity.
  - done.
Defined.
